(** * Bulk SMS dispatch: carrier selection, templating, signing and delivery

    A shallow embedding of [operators.py] and [sender.py].

    Python [str] values are held as Rocq [string]s in their UTF-8 encoding:
    [str.encode()] is then the list of the string's bytes, and substring
    search, [str.replace] and the emptiness test agree with Python's
    code-point versions because UTF-8 is self-synchronising.  Python [int]s
    are [Z].  The process-wide objects ([router.operadores], [rate_limiters],
    the database and the HTTP transport) are threaded explicitly through a
    state record. *)

From Stdlib Require Import ZArith List String Ascii Bool Lia Permutation Sorted.
From Stdlib Require Import DecimalString.
From stdpp Require Import gmap strings list fin_maps.

Open Scope string_scope.
Open Scope Z_scope.

(** ** Python strings *)

Module PyStr.

(** [sub in s] on strings. *)
Fixpoint contiene (sub s : string) : bool :=
  String.prefix sub s ||
  match s with
  | EmptyString => false
  | String _ s' => contiene sub s'
  end.

(** [s.startswith(p)]. *)
Definition startswith (p s : string) : bool := String.prefix p s.

(** The scan of [s.replace(old, new)] for a non-empty [old]: left to right,
    non-overlapping.  [saltar] counts the characters of a match that was
    just replaced and that are still to be dropped. *)
Fixpoint replace_desde (old new : string) (saltar : nat) (s : string) : string :=
  match s with
  | EmptyString => EmptyString
  | String c s' =>
      match saltar with
      | S k => replace_desde old new k s'
      | O =>
          if String.prefix old s
          then new ++ replace_desde old new (Nat.pred (String.length old)) s'
          else String c (replace_desde old new O s')
      end
  end.

(** [s.replace("", new)]: [new] before every character and at the end. *)
Fixpoint intercalar (new s : string) : string :=
  match s with
  | EmptyString => new
  | String c s' => new ++ String c (intercalar new s')
  end.

Definition replace (old new s : string) : string :=
  match old with
  | EmptyString => intercalar new s
  | String _ _ => replace_desde old new O s
  end.

(** [len(s) == 0]. *)
Definition vacio (s : string) : bool :=
  match s with EmptyString => true | String _ _ => false end.

(** A byte that continues a UTF-8 character begun earlier. *)
Definition es_continuacion (c : ascii) : bool :=
  let n := nat_of_ascii c in (128 <=? n)%nat && (n <? 192)%nat.

Fixpoint saltar_continuacion (s : string) : string :=
  match s with
  | EmptyString => EmptyString
  | String c s' => if es_continuacion c then saltar_continuacion s' else s
  end.

Fixpoint tomar_continuacion (s : string) : string :=
  match s with
  | EmptyString => EmptyString
  | String c s' =>
      if es_continuacion c then String c (tomar_continuacion s') else EmptyString
  end.

(** [s[n:]], counting characters. *)
Fixpoint desde (n : nat) (s : string) : string :=
  match n with
  | O => s
  | S k =>
      match s with
      | EmptyString => EmptyString
      | String _ s' => desde k (saltar_continuacion s')
      end
  end.

(** [s[:n]], counting characters. *)
Fixpoint hasta (n : nat) (s : string) : string :=
  match n with
  | O => EmptyString
  | S k =>
      match s with
      | EmptyString => EmptyString
      | String c s' =>
          String c (tomar_continuacion s' ++ hasta k (saltar_continuacion s'))
      end
  end.

(** The characters for which [str.isspace()] holds, in UTF-8: U+0009 to
    U+000D, U+001C to U+0020, U+0085, U+00A0, U+1680, U+2000 to U+200A,
    U+2028, U+2029, U+202F, U+205F and U+3000. *)
Definition ESPACIOS : list (list ascii) :=
  map (map ascii_of_nat)
    [ [9]; [10]; [11]; [12]; [13]; [28]; [29]; [30]; [31]; [32];
      [194; 133]; [194; 160]; [225; 154; 128];
      [226; 128; 128]; [226; 128; 129]; [226; 128; 130]; [226; 128; 131];
      [226; 128; 132]; [226; 128; 133]; [226; 128; 134]; [226; 128; 135];
      [226; 128; 136]; [226; 128; 137]; [226; 128; 138];
      [226; 128; 168]; [226; 128; 169]; [226; 128; 175]; [226; 129; 159];
      [227; 128; 128] ]%nat.

Fixpoint quitar_prefijo (p s : list ascii) : option (list ascii) :=
  match p, s with
  | [], _ => Some s
  | a :: p', b :: s' => if Ascii.eqb a b then quitar_prefijo p' s' else None
  | _ :: _, [] => None
  end.

(** What is left of [s] after the first entry of [tabla] it begins with. *)
Fixpoint quitar_primero (tabla : list (list ascii)) (s : list ascii)
    : option (list ascii) :=
  match tabla with
  | [] => None
  | p :: tabla' =>
      match quitar_prefijo p s with
      | Some resto => Some resto
      | None => quitar_primero tabla' s
      end
  end.

Fixpoint quitar_todos (tabla : list (list ascii)) (n : nat) (s : list ascii)
    : list ascii :=
  match n with
  | O => s
  | S k =>
      match quitar_primero tabla s with
      | Some resto => quitar_todos tabla k resto
      | None => s
      end
  end.

Definition lstrip_bytes (s : list ascii) : list ascii :=
  quitar_todos ESPACIOS (length s) s.

Definition rstrip_bytes (s : list ascii) : list ascii :=
  rev (quitar_todos (map (@rev ascii) ESPACIOS) (length s) (rev s)).

(** [s.strip()]. *)
Definition strip (s : string) : string :=
  string_of_list_ascii (rstrip_bytes (lstrip_bytes (list_ascii_of_string s))).

End PyStr.

(** ** Values of a row and [str(valor)] *)

Inductive PyValor : Type :=
| VStr (s : string)
| VInt (n : Z)
| VBool (b : bool)
| VNone.

Definition py_str (v : PyValor) : string :=
  match v with
  | VStr s => s
  | VInt n => NilZero.string_of_int (Z.to_int n)
  | VBool true => "True"
  | VBool false => "False"
  | VNone => "None"
  end.

(** A Python [dict] with string keys, in insertion order. *)
Definition Dict (V : Type) : Type := list (string * V).

(** Truthiness of an [Optional[str]]: [None] and [""] are falsy. *)
Definition str_verdadero (o : option string) : bool :=
  match o with
  | Some s => negb (PyStr.vacio s)
  | None => false
  end.

(** ** [SMSSender.preparar_mensaje] *)

(** One turn of the loop over [row_data.items()]. *)
Definition reemplazar_columna (mensaje_final : string) (kv : string * PyValor) : string :=
  let placeholder := "{" ++ fst kv ++ "}" in
  if PyStr.contiene placeholder mensaje_final
  then PyStr.replace placeholder (py_str (snd kv)) mensaje_final
  else mensaje_final.

Definition preparar_mensaje (mensaje numero : string)
    (row_data : option (Dict PyValor)) (link_dinamico : option string) : string :=
  let mensaje_final := mensaje in
  let mensaje_final :=
    match row_data with
    | Some ((_ :: _) as filas) => fold_left reemplazar_columna filas mensaje_final
    | _ => mensaje_final
    end in
  match link_dinamico with
  | Some link =>
      if str_verdadero link_dinamico && PyStr.contiene "{link}" mensaje_final
      then PyStr.replace "{link}" link mensaje_final
      else mensaje_final
  | None => mensaje_final
  end.

(** ** [hashlib.md5]: the MD5 digest of RFC 1321

    Words are 32-bit integers held in [Z], reduced after every addition;
    bytes are integers in [0, 256). *)

Module MD5.

Definition w32 (x : Z) : Z := x mod 2 ^ 32.

Definition rotl32 (x n : Z) : Z :=
  w32 (Z.lor (Z.shiftl x n) (Z.shiftr x (32 - n))).

Definition not32 (x : Z) : Z := Z.lxor x (2 ^ 32 - 1).

(** [floor(2^32 * abs(sin(i + 1)))] for [i] in 0..63. *)
Definition K : list Z :=
  [ 0xd76aa478; 0xe8c7b756; 0x242070db; 0xc1bdceee;
    0xf57c0faf; 0x4787c62a; 0xa8304613; 0xfd469501;
    0x698098d8; 0x8b44f7af; 0xffff5bb1; 0x895cd7be;
    0x6b901122; 0xfd987193; 0xa679438e; 0x49b40821;
    0xf61e2562; 0xc040b340; 0x265e5a51; 0xe9b6c7aa;
    0xd62f105d; 0x02441453; 0xd8a1e681; 0xe7d3fbc8;
    0x21e1cde6; 0xc33707d6; 0xf4d50d87; 0x455a14ed;
    0xa9e3e905; 0xfcefa3f8; 0x676f02d9; 0x8d2a4c8a;
    0xfffa3942; 0x8771f681; 0x6d9d6122; 0xfde5380c;
    0xa4beea44; 0x4bdecfa9; 0xf6bb4b60; 0xbebfbc70;
    0x289b7ec6; 0xeaa127fa; 0xd4ef3085; 0x04881d05;
    0xd9d4d039; 0xe6db99e5; 0x1fa27cf8; 0xc4ac5665;
    0xf4292244; 0x432aff97; 0xab9423a7; 0xfc93a039;
    0x655b59c3; 0x8f0ccc92; 0xffeff47d; 0x85845dd1;
    0x6fa87e4f; 0xfe2ce6e0; 0xa3014314; 0x4e0811a1;
    0xf7537e82; 0xbd3af235; 0x2ad7d2bb; 0xeb86d391 ].

(** Per-round left-rotation amounts. *)
Definition R : list Z :=
  [ 7; 12; 17; 22; 7; 12; 17; 22; 7; 12; 17; 22; 7; 12; 17; 22;
    5; 9; 14; 20; 5; 9; 14; 20; 5; 9; 14; 20; 5; 9; 14; 20;
    4; 11; 16; 23; 4; 11; 16; 23; 4; 11; 16; 23; 4; 11; 16; 23;
    6; 10; 15; 21; 6; 10; 15; 21; 6; 10; 15; 21; 6; 10; 15; 21 ].

Record estado : Type := Estado { rA : Z; rB : Z; rC : Z; rD : Z }.

Definition inicial : estado :=
  Estado 0x67452301 0xefcdab89 0x98badcfe 0x10325476.

(** The little-endian word at index [g] of a 64-byte block. *)
Definition palabra (bloque : list Z) (g : nat) : Z :=
  nth (4 * g) bloque 0
  + Z.shiftl (nth (4 * g + 1) bloque 0) 8
  + Z.shiftl (nth (4 * g + 2) bloque 0) 16
  + Z.shiftl (nth (4 * g + 3) bloque 0) 24.

(** Operation [i] of the 64 on one block. *)
Definition paso (bloque : list Z) (st : estado) (i : nat) : estado :=
  let '(Estado a b c d) := st in
  let '(f, g) :=
    if (i <? 16)%nat then (Z.lor (Z.land b c) (Z.land (not32 b) d), i)
    else if (i <? 32)%nat then
      (Z.lor (Z.land d b) (Z.land (not32 d) c), (5 * i + 1) mod 16)%nat
    else if (i <? 48)%nat then
      (Z.lxor (Z.lxor b c) d, (3 * i + 5) mod 16)%nat
    else (Z.lxor c (Z.lor b (not32 d)), (7 * i) mod 16)%nat in
  let f := w32 (f + a + nth i K 0 + palabra bloque g) in
  Estado d (w32 (b + rotl32 f (nth i R 0))) b c.

Definition comprimir (st : estado) (bloque : list Z) : estado :=
  let st' := fold_left (paso bloque) (seq 0 64) st in
  Estado (w32 (rA st + rA st')) (w32 (rB st + rB st'))
         (w32 (rC st + rC st')) (w32 (rD st + rD st')).

(** The [n] low bytes of [x], least significant first. *)
Fixpoint bytes_le (n : nat) (x : Z) : list Z :=
  match n with
  | O => []
  | S n' => x mod 256 :: bytes_le n' (x / 256)
  end.

(** Message, a 1 bit, zeros up to 56 modulo 64, and the bit length on 64 bits. *)
Definition rellenar (msg : list Z) : list Z :=
  let n := Z.of_nat (length msg) in
  msg ++ [0x80] ++ repeat 0 (Z.to_nat ((55 - n) mod 64))
      ++ bytes_le 8 ((8 * n) mod 2 ^ 64).

Fixpoint bloques (n : nat) (l : list Z) : list (list Z) :=
  match n with
  | O => []
  | S n' => firstn 64 l :: bloques n' (skipn 64 l)
  end.

Definition digest (msg : list Z) : list Z :=
  let relleno := rellenar msg in
  let st := fold_left comprimir (bloques (length relleno / 64) relleno) inicial in
  bytes_le 4 (rA st) ++ bytes_le 4 (rB st) ++ bytes_le 4 (rC st) ++ bytes_le 4 (rD st).

Definition digito_hex (n : Z) : ascii :=
  nth (Z.to_nat (n mod 16))
      (list_ascii_of_string "0123456789abcdef") "0"%char.

(** [bytes.hex()]: two lowercase digits per byte. *)
Fixpoint hex (bs : list Z) : string :=
  match bs with
  | [] => EmptyString
  | b :: bs' => String (digito_hex (b / 16)) (String (digito_hex b) (hex bs'))
  end.

(** [s.encode()]: the bytes of the (UTF-8) string. *)
Definition encode (s : string) : list Z :=
  map (fun c => Z.of_N (N_of_ascii c)) (list_ascii_of_string s).

(** [hashlib.md5(s.encode()).hexdigest()]. *)
Definition hexdigest (s : string) : string := hex (digest (encode s)).

End MD5.

(** ** Exceptions and results *)

Inductive Excepcion : Type :=
| KeyError (clave : string)
| IndexError.

Inductive Res (A : Type) : Type :=
| Bien (a : A)
| Lanza (e : Excepcion).

Arguments Bien {A} a.
Arguments Lanza {A} e.

(** ** Dictionaries in insertion order *)

Section Diccionario.
Context {V : Type}.

(** [d.get(k)]. *)
Fixpoint dict_get (d : Dict V) (k : string) : option V :=
  match d with
  | [] => None
  | (k', v) :: d' => if String.eqb k k' then Some v else dict_get d' k
  end.

(** [d[k] = v]: an existing key keeps its place, a new one goes last. *)
Fixpoint dict_set (d : Dict V) (k : string) (v : V) : Dict V :=
  match d with
  | [] => [(k, v)]
  | (k', v') :: d' =>
      if String.eqb k k' then (k, v) :: d' else (k', v') :: dict_set d' k v
  end.

(** [d.values()]. *)
Definition dict_values (d : Dict V) : list V := map snd d.

End Diccionario.

(** ** [operators.py] *)

Record OperadorConfig : Type := mkOperadorConfig {
  operador : string;
  url_api : string;
  cuenta : string;
  contraseña : string;
  sender_id : string;
  prioridad : Z;
  max_por_minuto : Z;
  max_reintentos : Z;
  timeout_segundos : Z;
  habilitado : bool
}.

(** [OperadorConfig.generar_sign].  [ahora] is the reading of
    [datetime.now(zona).strftime('%Y%m%d%H%M%S')], used when no timestamp
    is passed. *)
Definition generar_sign (self : OperadorConfig) (timestamp : option string)
    (ahora : string) : string * string :=
  let timestamp := match timestamp with Some t => t | None => ahora end in
  let texto := cuenta self ++ contraseña self ++ timestamp in
  let sign := MD5.hexdigest texto in
  (sign, timestamp).

Definition op_principal : OperadorConfig :=
  mkOperadorConfig "principal" "http://sms.yx19999.com:20003/sendsmsV2"
    "cs_p8bh8b" "iGcMIQxT" "teddy" 1 100 5 10 true.

Definition OPERADORES_PREDEFINIDOS : Dict OperadorConfig :=
  [ ("principal", op_principal);
    ("backup1",
     mkOperadorConfig "backup1" "http://api-backup1.sms.com/send"
       "account_backup1" "password_backup1" "sender_backup1" 2 100 5 10 false);
    ("backup2",
     mkOperadorConfig "backup2" "http://api-backup2.sms.com/send"
       "account_backup2" "password_backup2" "sender_backup2" 3 100 5 10 false) ].

(** [list.sort(key=lambda x: x.prioridad)]: a stable sort, so carriers of
    equal priority keep the order they had in the list. *)
Fixpoint insertar_por_prioridad (x : OperadorConfig) (l : list OperadorConfig)
    : list OperadorConfig :=
  match l with
  | [] => [x]
  | y :: l' =>
      if prioridad x <=? prioridad y then x :: y :: l'
      else y :: insertar_por_prioridad x l'
  end.

Fixpoint ordenar_por_prioridad (l : list OperadorConfig) : list OperadorConfig :=
  match l with
  | [] => []
  | x :: l' => insertar_por_prioridad x (ordenar_por_prioridad l')
  end.

Definition operadores_habilitados (operadores : Dict OperadorConfig)
    : list OperadorConfig :=
  List.filter habilitado (dict_values operadores).

(** [OperadorRouter.obtener_operador_siguiente]. *)
Definition obtener_operador_siguiente (operadores : Dict OperadorConfig)
    (intento : Z) (operador_fallido : option string) : Res OperadorConfig :=
  let habilitados := operadores_habilitados operadores in
  match habilitados with
  | [] =>
      match dict_get operadores "principal" with
      | Some op => Bien op
      | None => Lanza (KeyError "principal")
      end
  | _ :: _ =>
      let ordenados := ordenar_por_prioridad habilitados in
      let idx := intento mod Z.of_nat (length ordenados) in
      match nth_error ordenados (Z.to_nat idx) with
      | Some op => Bien op
      | None => Lanza IndexError
      end
  end.

(** [OperadorRouter.obtener_operador]. *)
Definition obtener_operador (operadores : Dict OperadorConfig) (nombre : string)
    : option OperadorConfig :=
  dict_get operadores nombre.

Definition con_habilitado (h : bool) (op : OperadorConfig) : OperadorConfig :=
  mkOperadorConfig (operador op) (url_api op) (cuenta op) (contraseña op)
    (sender_id op) (prioridad op) (max_por_minuto op) (max_reintentos op)
    (timeout_segundos op) h.

(** [OperadorRouter.habilitar_operador]: the new registry and the flag returned. *)
Definition habilitar_operador (operadores : Dict OperadorConfig)
    (nombre : string) (h : bool) : Dict OperadorConfig * bool :=
  match dict_get operadores nombre with
  | Some op => (dict_set operadores nombre (con_habilitado h op), true)
  | None => (operadores, false)
  end.

(** [OperadorRouter.agregar_operador]. *)
Definition agregar_operador (operadores : Dict OperadorConfig)
    (config : OperadorConfig) : Dict OperadorConfig :=
  dict_set operadores (operador config) config.

(** [OperadorRouter.OPERADOR_PREFIJOS]. *)
Definition OPERADOR_PREFIJOS : Dict (list string) :=
  [ ("movistar", ["310"; "311"; "320"; "321"]);
    ("claro", ["301"; "302"; "303"; "304"; "305"]);
    ("wom", ["322"; "323"]);
    ("directv", ["312"]) ].

(** The loop of lines 109-111: the first carrier whose list holds [prefijo]. *)
Fixpoint buscar_prefijo (tabla : Dict (list string)) (prefijo : string)
    : option string :=
  match tabla with
  | [] => None
  | (op, prefijos) :: tabla' =>
      if existsb (String.eqb prefijo) prefijos then Some op
      else buscar_prefijo tabla' prefijo
  end.

(** The number as lines 102-104 leave it: stripped, without country code. *)
Definition numero_nacional (numero : string) : string :=
  let numero := PyStr.strip numero in
  if PyStr.startswith "57" numero then PyStr.desde 2 numero else numero.

(** [OperadorRouter.detectar_operador_por_numero]. *)
Definition detectar_operador_por_numero (numero : string) : string :=
  let numero := numero_nacional numero in
  let prefijo := PyStr.hasta 3 numero in
  match buscar_prefijo OPERADOR_PREFIJOS prefijo with
  | Some op => op
  | None => "principal"
  end.



(** ** Collaborators of [sender.py] *)

(** Modelled from the spec: the [rate_limiter] module is not among the
    sources.  A limiter is built from a per-minute cap and [esperar] only
    delays, it never rejects (spec 4.4); the instance counts the admissions
    it granted. *)
Record RateLimiter : Type := mkRateLimiter {
  rl_max_por_minuto : Z;
  rl_admitidos : nat
}.

Definition RateLimiter_nuevo (max_por_minuto : Z) : RateLimiter :=
  mkRateLimiter max_por_minuto 0.

Definition esperar (rl : RateLimiter) : RateLimiter :=
  mkRateLimiter (rl_max_por_minuto rl) (S (rl_admitidos rl)).

(** What [response.json()] or its fallback leaves in [respuesta]. *)
Inductive Respuesta : Type :=
| RJson (cuerpo : string)
| RTexto (text : string) (status_code : Z).

Record HttpResponse : Type := mkHttpResponse {
  status_code : Z;
  text : string;
  es_json : bool   (* whether [response.json()] parses the body *)
}.

(** The request handed to [requests.post]. *)
Record Peticion : Type := mkPeticion {
  p_url : string;
  p_account : string;
  p_sign : string;
  p_datetime : string;
  p_senderid : string;
  p_numbers : string;
  p_content : string;
  p_timeout : Z
}.

(** How [requests.post] ends; a response comes with the elapsed milliseconds. *)
Inductive ResultadoRed : Type :=
| Responde (r : HttpResponse) (tiempo_ms : Z)
| Timeout
| RequestException (e : string)
| OtraExcepcion (e : string).

(** The world outside: the network's answer to the [n]-th request, the
    clock reading taken for it, and whether the write of an [enviado]
    record made after [k] earlier calls of [db.actualizar_intento] raises,
    and with what text.  That write (lines 133-139) is the one call of the
    database inside the [try]: an exception of it, which is none of
    [requests]' own, is caught at line 179.
    The other writes stand outside the [try] or inside a handler, where an
    exception would leave [enviar_sms_ahora]; the model covers the
    invocations that return. *)
Record Entorno : Type := mkEntorno {
  red : nat -> Peticion -> ResultadoRed;
  reloj : nat -> string;
  bd_falla : nat -> option string
}.

(** One call of [db.actualizar_intento].  [i_respuesta_api] holds the
    response whose [str()] the source passes. *)
Record Intento : Type := mkIntento {
  i_queue_id : Z;
  i_operador : string;
  i_estado : string;
  i_respuesta_api : option Respuesta;
  i_error : option string;
  i_tiempo_ms : option Z
}.

(** One invocation of [enviar_sms_ahora], with its arguments. *)
Record Llamada : Type := mkLlamada {
  ll_queue_id : Z;
  ll_numero : string;
  ll_mensaje : string;
  ll_operador_nombre : string;
  ll_row_data : option (Dict PyValor);
  ll_link_dinamico : option string
}.

(** The dictionary returned by [enviar_sms_ahora]; absent keys are [None]. *)
Record Resultado : Type := mkResultado {
  success : bool;
  r_numero : string;
  r_operador : string;
  r_respuesta : option Respuesta;
  r_tiempo_ms : option Z;
  r_error : option string
}.

(** A row of the queue as [db.obtener_pendientes] returns it: the keys that
    [sender.py] reads and, modelled from the spec (section 3, the timestamp
    of the last attempt, in seconds), [it_ultimo_intento], which nothing in
    [sender.py] reads. *)
Record QueueItem : Type := mkQueueItem {
  it_id : Z;
  it_numero : string;
  it_mensaje : string;
  it_operador : option string;
  it_intentos : Z;
  it_estado : string;
  it_ultimo_intento : Z
}.

(** ** The process state

    [rate_limiters] maps a carrier name to the limiter object it holds;
    objects live in [limitadores] and are named by their index, a new one is
    appended.  [intentos_bd] lists the calls of [db.actualizar_intento] and
    [posts] the requests issued, oldest first.  [llamadas] is a trace of the
    invocations of [enviar_sms_ahora]; the program never reads it. *)
Record Estado : Type := mkEstado {
  operadores : Dict OperadorConfig;
  rate_limiters : gmap string nat;
  limitadores : list RateLimiter;
  intentos_bd : list Intento;
  posts : list Peticion;
  llamadas : list Llamada
}.

Definition inicial : Estado :=
  mkEstado OPERADORES_PREDEFINIDOS ∅ [] [] [] [].

Definition con_operadores (ops : Dict OperadorConfig) (st : Estado) : Estado :=
  mkEstado ops (rate_limiters st) (limitadores st) (intentos_bd st) (posts st)
    (llamadas st).

Definition anotar_llamada (ll : Llamada) (st : Estado) : Estado :=
  mkEstado (operadores st) (rate_limiters st) (limitadores st) (intentos_bd st)
    (posts st) (llamadas st ++ [ll]).

Definition anotar_post (p : Peticion) (st : Estado) : Estado :=
  mkEstado (operadores st) (rate_limiters st) (limitadores st) (intentos_bd st)
    (posts st ++ [p]) (llamadas st).

(** Modelled from the spec: [db.actualizar_intento(queue_id, operador,
    estado, respuesta_api=..., error=..., tiempo_ms=...)] of the database
    module, which is not among the sources (section 6: [record_attempt]).
    The call is entered in [intentos_bd]; whether it then raises is the
    environment's [bd_falla], consulted where the caller can catch it. *)
Definition actualizar_intento (st : Estado) (queue_id : Z) (operador estado : string)
    (respuesta_api : option Respuesta) (error : option string)
    (tiempo_ms : option Z) : Estado :=
  mkEstado (operadores st) (rate_limiters st) (limitadores st)
    (intentos_bd st
       ++ [mkIntento queue_id operador estado respuesta_api error tiempo_ms])
    (posts st) (llamadas st).

(** The state with further calls of the database entered. *)
Definition anotar_intentos (nuevos : list Intento) (st : Estado) : Estado :=
  mkEstado (operadores st) (rate_limiters st) (limitadores st)
    (intentos_bd st ++ nuevos) (posts st) (llamadas st).

(** Lines 88-92: create the carrier's limiter if the name is not bound yet,
    then wait on the bound instance. *)
Definition adquirir_limitador (st : Estado) (operador_nombre : string)
    (max_por_minuto : Z) : Estado :=
  let '(rls, objs) :=
    match rate_limiters st !! operador_nombre with
    | Some _ => (rate_limiters st, limitadores st)
    | None =>
        (<[operador_nombre := length (limitadores st)]> (rate_limiters st),
         (limitadores st ++ [RateLimiter_nuevo max_por_minuto])%list)
    end in
  let objs :=
    match rls !! operador_nombre with
    | Some limiter => alter esperar limiter objs
    | None => objs
    end in
  mkEstado (operadores st) rls objs (intentos_bd st) (posts st) (llamadas st).

Definition fallo (numero operador_nombre error : string) : Resultado :=
  mkResultado false numero operador_nombre None None (Some error).

(** ** [SMSSender.enviar_sms_ahora] *)
Definition enviar_sms_ahora (env : Entorno) (st : Estado) (queue_id : Z)
    (numero mensaje operador_nombre : string)
    (row_data : option (Dict PyValor)) (link_dinamico : option string)
    : Estado * Resultado :=
  let st :=
    anotar_llamada
      (mkLlamada queue_id numero mensaje operador_nombre row_data link_dinamico) st in
  match obtener_operador (operadores st) operador_nombre with
  | None => (st, fallo numero operador_nombre "Operador no existe")
  | Some operador =>
      let mensaje_procesado := preparar_mensaje mensaje numero row_data link_dinamico in
      if PyStr.vacio mensaje_procesado then
        (actualizar_intento st queue_id operador_nombre "error" None
           (Some "Mensaje vacío después de procesar variables") None,
         fallo numero operador_nombre "Mensaje vacío")
      else
        let st := adquirir_limitador st operador_nombre (max_por_minuto operador) in
        let n := length (posts st) in
        let '(sign, timestamp) := generar_sign operador None (reloj env n) in
        let numero_formateado :=
          if negb (PyStr.startswith "57" numero) then "57" ++ numero else numero in
        let peticion :=
          mkPeticion (url_api operador) (cuenta operador) sign timestamp
            (sender_id operador) numero_formateado mensaje_procesado
            (timeout_segundos operador) in
        let st := anotar_post peticion st in
        match red env n peticion with
        | Responde response tiempo_ms =>
            let respuesta :=
              if es_json response then RJson (text response)
              else RTexto (text response) (status_code response) in
            let escritas := length (intentos_bd st) in
            let st :=
              actualizar_intento st queue_id operador_nombre "enviado"
                (Some respuesta) None (Some tiempo_ms) in
            match bd_falla env escritas with
            | None =>
                (st,
                 mkResultado true numero operador_nombre (Some respuesta)
                   (Some tiempo_ms) None)
            | Some e =>
                (* the write raised: [except Exception], lines 179-192 *)
                (actualizar_intento st queue_id operador_nombre "error" None
                   (Some e) None,
                 fallo numero operador_nombre e)
            end
        | Timeout =>
            (actualizar_intento st queue_id operador_nombre "error" None
               (Some "Timeout de conexión") None,
             fallo numero operador_nombre "Timeout")
        | RequestException e =>
            (actualizar_intento st queue_id operador_nombre "error" None (Some e) None,
             fallo numero operador_nombre e)
        | OtraExcepcion e =>
            (actualizar_intento st queue_id operador_nombre "error" None (Some e) None,
             fallo numero operador_nombre e)
        end
  end.

(** ** [SMSSender.procesar_cola] and [SMSSender.reintentar_fallidos]

    [pendientes] is what [db.obtener_pendientes] returned.  An exception of
    the selector leaves the loop; it is returned beside the state reached. *)
Fixpoint procesar_items (env : Entorno) (st : Estado) (pendientes : list QueueItem)
    : Estado * option Excepcion :=
  match pendientes with
  | [] => (st, None)
  | item :: resto =>
      match obtener_operador_siguiente (operadores st) (it_intentos item)
              (it_operador item) with
      | Lanza e => (st, Some e)
      | Bien op =>
          let '(st', _) :=
            enviar_sms_ahora env st (it_id item) (it_numero item) (it_mensaje item)
              (operador op) None None in
          procesar_items env st' resto
      end
  end.

Definition procesar_cola (env : Entorno) (st : Estado) (pendientes : list QueueItem)
    : Estado * option Excepcion :=
  match pendientes with
  | [] => (st, None)
  | _ :: _ => procesar_items env st pendientes
  end.

Fixpoint reintentar_fallidos (env : Entorno) (st : Estado)
    (pendientes : list QueueItem) : Estado * option Excepcion :=
  match pendientes with
  | [] => (st, None)
  | item :: resto =>
      if String.eqb (it_estado item) "reintentando" then
        match obtener_operador_siguiente (operadores st) (it_intentos item) None with
        | Lanza e => (st, Some e)
        | Bien op =>
            let '(st', _) :=
              enviar_sms_ahora env st (it_id item) (it_numero item) (it_mensaje item)
                (operador op) None None in
            reintentar_fallidos env st' resto
        end
      else reintentar_fallidos env st resto
  end.


(** ** Runs of the process

    The operations that touch the state, and their execution in sequence
    from the state the modules are imported in. *)
Inductive Operacion : Type :=
| OpEnviar (queue_id : Z) (numero mensaje operador_nombre : string)
    (row_data : option (Dict PyValor)) (link_dinamico : option string)
| OpProcesarCola (pendientes : list QueueItem)
| OpReintentarFallidos (pendientes : list QueueItem)
| OpHabilitar (nombre : string) (h : bool)
| OpAgregar (config : OperadorConfig).

Definition ejecutar (env : Entorno) (st : Estado) (o : Operacion) : Estado :=
  match o with
  | OpEnviar queue_id numero mensaje operador_nombre row_data link_dinamico =>
      fst (enviar_sms_ahora env st queue_id numero mensaje operador_nombre
             row_data link_dinamico)
  | OpProcesarCola pendientes => fst (procesar_cola env st pendientes)
  | OpReintentarFallidos pendientes => fst (reintentar_fallidos env st pendientes)
  | OpHabilitar nombre h =>
      con_operadores (fst (habilitar_operador (operadores st) nombre h)) st
  | OpAgregar config =>
      con_operadores (agregar_operador (operadores st) config) st
  end.

Definition ejecutar_todas (env : Entorno) (st : Estado) (os : list Operacion)
    : Estado :=
  fold_left (ejecutar env) os st.

(** ** Predicates used in the statements *)

(** Names and limiter objects are in one-to-one correspondence: a bound
    name holds an existing object, no object is held under two names, and
    every object ever created is held. *)
Definition limitadores_uno_a_uno (st : Estado) : Prop :=
  (forall (nombre : string) (l : nat),
      rate_limiters st !! nombre = Some l -> (l < length (limitadores st))%nat)
  /\ (forall (n1 n2 : string) (l : nat),
        rate_limiters st !! n1 = Some l -> rate_limiters st !! n2 = Some l -> n1 = n2)
  /\ (forall l : nat, (l < length (limitadores st))%nat ->
        exists nombre : string, rate_limiters st !! nombre = Some l).

(** From [st] to [st'] every name keeps the limiter object it held, and
    every object keeps its cap. *)
Definition conserva_limitadores (st st' : Estado) : Prop :=
  (forall (nombre : string) (loc : nat),
      rate_limiters st !! nombre = Some loc ->
      rate_limiters st' !! nombre = Some loc)
  /\ (forall (loc : nat) (x : RateLimiter),
        limitadores st !! loc = Some x ->
        exists x', limitadores st' !! loc = Some x'
                   /\ rl_max_por_minuto x' = rl_max_por_minuto x).

(** Whether a call of [enviar_sms_ahora] gets as far as the rate-limiting
    step: the carrier is registered and the rendered message is not empty. *)
Definition llega_al_limitador (st : Estado) (numero mensaje operador_nombre : string)
    (row_data : option (Dict PyValor)) (link_dinamico : option string)
    : option OperadorConfig :=
  match obtener_operador (operadores st) operador_nombre with
  | Some op =>
      if PyStr.vacio (preparar_mensaje mensaje numero row_data link_dinamico)
      then None else Some op
  | None => None
  end.

(** Ascending priority, ties allowed. *)
Definition prioridad_le (a b : OperadorConfig) : Prop := prioridad a <= prioridad b.

(** The selector cannot raise on this registry: some carrier is enabled, or
    an entry named [principal] exists for the fallback. *)
Definition seleccion_segura (ops : Dict OperadorConfig) : Prop :=
  operadores_habilitados ops <> [] \/ is_Some (obtener_operador ops "principal").

(** The test of line 240 on a row. *)
Definition es_reintentando (item : QueueItem) : bool :=
  String.eqb (it_estado item) "reintentando".

(** The invocation a pass makes for a row once the selector has returned
    [op] (lines 219-224 and 251-256): the row's id, number and stored
    template, the carrier's name, and neither row data nor link. *)
Definition llamada_de_fila (item : QueueItem) (op : OperadorConfig) : Llamada :=
  mkLlamada (it_id item) (it_numero item) (it_mensaje item) (operador op) None None.

(** [ll] is the invocation made for the row [item] on the registry [ops],
    the selector being handed [pista item] as the carrier that failed. *)
Definition atiende (ops : Dict OperadorConfig) (pista : QueueItem -> option string)
    (ll : Llamada) (item : QueueItem) : Prop :=
  exists op,
    obtener_operador_siguiente ops (it_intentos item) (pista item) = Bien op
    /\ ll = llamada_de_fila item op.

(** Whether the selector returns a carrier on this registry. *)
Definition selector_responde (ops : Dict OperadorConfig) : bool :=
  match obtener_operador_siguiente ops 0 None with
  | Bien _ => true
  | Lanza _ => false
  end.

(** The rows a pass gets to: all of them, or none when the selector raises,
    which it then does for the first row. *)
Definition filas_atendidas (ops : Dict OperadorConfig) (pendientes : list QueueItem)
    : list QueueItem :=
  if selector_responde ops then pendientes else [].

(** Whether the invocation [ll], made on [st], issues a request. *)
Definition transmite (st : Estado) (ll : Llamada) : bool :=
  match llega_al_limitador st (ll_numero ll) (ll_mensaje ll) (ll_operador_nombre ll)
          (ll_row_data ll) (ll_link_dinamico ll) with
  | Some _ => true
  | None => false
  end.

(** Destination and body of a request. *)
Definition destino_y_cuerpo (p : Peticion) : string * string :=
  (p_numbers p, p_content p).

(** The row [item] with another value under its ['operador'] key. *)
Definition con_it_operador (o : option string) (item : QueueItem) : QueueItem :=
  mkQueueItem (it_id item) (it_numero item) (it_mensaje item) o (it_intentos item)
    (it_estado item) (it_ultimo_intento item).

(** A digit among [0-9a-f]. *)
Definition es_hex_minuscula (c : ascii) : bool :=
  let n := nat_of_ascii c in
  ((48 <=? n)%nat && (n <=? 57)%nat) || ((97 <=? n)%nat && (n <=? 102)%nat).

(** Every entry of the registry is filed under its own name. *)
Definition claves_coherentes (ops : Dict OperadorConfig) : Prop :=
  Forall (fun kv => operador (snd kv) = fst kv) ops.

(** The registries the router's methods can produce: coherent keys, and an
    entry named [principal]. *)
Definition registro_valido (ops : Dict OperadorConfig) : Prop :=
  claves_coherentes ops /\ is_Some (obtener_operador ops "principal").

(** Admissions granted so far by all the limiters together. *)
Definition total_admitidos (st : Estado) : nat :=
  list_sum (map rl_admitidos (limitadores st)).

(** The destination as line 104 writes it into the request. *)
Definition numero_formateado (numero : string) : string :=
  if negb (PyStr.startswith "57" numero) then "57" ++ numero else numero.




(** A string of decimal digits. *)
Definition solo_digitos (s : string) : bool :=
  forallb (fun c => (48 <=? nat_of_ascii c)%nat && (nat_of_ascii c <=? 57)%nat)
    (list_ascii_of_string s).

(** Every request was recorded and came from an invocation; the records
    number at most one for each invocation and one more for each request
    (the second record of an invocation whose [enviado] write raised); and
    every request went through one admission of a limiter. *)
Definition cuentas_coherentes (st : Estado) : Prop :=
  (length (posts st) <= length (intentos_bd st))%nat
  /\ (length (intentos_bd st) <= length (llamadas st) + length (posts st))%nat
  /\ (length (posts st) <= length (llamadas st))%nat
  /\ total_admitidos st = length (posts st).

(** The records a pass writes for a row: one, under the row's id and a
    registered carrier name, and after it, when it is an [enviado] record
    whose write raised, the [error] record of the catch-all handler. *)
Definition registros_de_fila (ops : Dict OperadorConfig) (item : QueueItem)
    (g : list Intento) : Prop :=
  exists i,
    i_queue_id i = it_id item
    /\ is_Some (obtener_operador ops (i_operador i))
    /\ (g = [i]
        \/ exists e,
             i_estado i = "enviado"
             /\ g = [i; mkIntento (it_id item) (i_operador i) "error" None
                          (Some e) None]).

(** ** The specification's wording, for comparison with the code *)

(** Section 4.5 of the specification, read literally: every key of the row
    is replaced, then the link placeholder when one remains and a link was
    supplied. *)
Definition render_spec (template : string) (row_data : Dict PyValor)
    (dynamic_link : option string) : string :=
  let s :=
    fold_left
      (fun acc kv => PyStr.replace ("{" ++ fst kv ++ "}") (py_str (snd kv)) acc)
      row_data template in
  match dynamic_link with
  | Some link =>
      if PyStr.contiene "{link}" s then PyStr.replace "{link}" link s else s
  | None => s
  end.

(** The rows of an optional mapping. *)
Definition filas_de (row_data : option (Dict PyValor)) : Dict PyValor :=
  match row_data with Some d => d | None => [] end.

(** A link counts for the code only when it is a non-empty string. *)
Definition link_no_vacio (link_dinamico : option string) : option string :=
  if str_verdadero link_dinamico then link_dinamico else None.



(** ** Fixtures used by the examples *)

Definition respuesta_ok : HttpResponse := mkHttpResponse 200 "{}" true.

(** A network that answers every request at once with HTTP 200. *)
Definition env_ok : Entorno :=
  mkEntorno (fun _ _ => Responde respuesta_ok 12) (fun _ => "20240101120000")
    (fun _ => None).

(** The predefined registry after [habilitar_operador('principal', False)]. *)
Definition registro_sin_habilitados : Dict OperadorConfig :=
  fst (habilitar_operador OPERADORES_PREDEFINIDOS "principal" false).

(** The predefined registry with the two backups switched on. *)
Definition registro_tres_habilitados : Dict OperadorConfig :=
  fst (habilitar_operador
         (fst (habilitar_operador OPERADORES_PREDEFINIDOS "backup2" true))
         "backup1" true).

(** Two enabled carriers of equal priority, [b] registered before [a]. *)
Definition registro_empate : Dict OperadorConfig :=
  [ ("b", mkOperadorConfig "b" "http://b" "cb" "pb" "sb" 2 100 5 10 true);
    ("principal", op_principal);
    ("a", mkOperadorConfig "a" "http://a" "ca" "pa" "sa" 2 100 5 10 true) ].

(** A row in state [reintentando] whose last attempt was made at second
    1000, with one attempt counted. *)
Definition item_reciente : QueueItem :=
  mkQueueItem 7 "3011234567" "Hola {nombre}, ver {link}" (Some "principal") 1
    "reintentando" 1000.

(** A row never attempted, with another template, and a row whose template
    is empty. *)
Definition item_nuevo : QueueItem :=
  mkQueueItem 8 "573109876543" "Su codigo es {codigo}" None 0 "pending" 0.

Definition item_vacio : QueueItem :=
  mkQueueItem 9 "3020000000" "" None 0 "pending" 0.

(** * Properties *)

(** ** Templating *)

Section Plantillas.

Lemma contiene_cons sub c s :
  PyStr.contiene sub (String c s)
  = String.prefix sub (String c s) || PyStr.contiene sub s.
Proof. reflexivity. Qed.

Lemma replace_desde_sin_ocurrencia old new s :
  PyStr.contiene old s = false -> PyStr.replace_desde old new O s = s.
Proof.
  induction s as [| c s IH]; intros Hno; [reflexivity |].
  rewrite contiene_cons in Hno.
  apply orb_false_iff in Hno as [Hpre Hresto].
  cbn [PyStr.replace_desde]. rewrite Hpre. f_equal. now apply IH.
Qed.

Lemma contiene_vacio s : PyStr.contiene "" s = true.
Proof. destruct s; reflexivity. Qed.

(** [replace] changes nothing when the pattern does not occur. *)
Lemma replace_sin_ocurrencia old new s :
  PyStr.contiene old s = false -> PyStr.replace old new s = s.
Proof.
  destruct old as [| a old]; intros Hno.
  - rewrite contiene_vacio in Hno. discriminate.
  - now apply replace_desde_sin_ocurrencia.
Qed.

(** The membership test before each [replace] is redundant. *)
Lemma reemplazar_columna_sin_guarda s kv :
  reemplazar_columna s kv
  = PyStr.replace ("{" ++ fst kv ++ "}") (py_str (snd kv)) s.
Proof.
  unfold reemplazar_columna. cbv zeta.
  destruct (PyStr.contiene ("{" ++ fst kv ++ "}") s) eqn:Hc; [reflexivity |].
  symmetry. now apply replace_sin_ocurrencia.
Qed.

Lemma fold_columnas_sin_guarda filas s :
  fold_left reemplazar_columna filas s
  = fold_left
      (fun acc kv => PyStr.replace ("{" ++ fst kv ++ "}") (py_str (snd kv)) acc)
      filas s.
Proof.
  revert s. induction filas as [| kv filas IH]; intros s; [reflexivity |].
  cbn [fold_left]. rewrite reemplazar_columna_sin_guarda. apply IH.
Qed.

Lemma fold_columnas_sin_coincidencias filas s :
  Forall (fun kv => PyStr.contiene ("{" ++ fst kv ++ "}") s = false) filas ->
  fold_left reemplazar_columna filas s = s.
Proof.
  induction 1 as [| kv filas Hkv _ IH]; [reflexivity |].
  cbn [fold_left]. unfold reemplazar_columna at 2. cbv zeta.
  now rewrite Hkv.
Qed.

Lemma preparar_sin_datos mensaje numero :
  preparar_mensaje mensaje numero None None = mensaje.
Proof. reflexivity. Qed.

End Plantillas.

Example preparar_hola :
  preparar_mensaje "Hola {nombre}" "3011234567" (Some [("nombre", VStr "Ana")]) None
  = "Hola Ana".
Proof. reflexivity. Qed.

Example preparar_link :
  preparar_mensaje "Ver {link}" "3011234567" (Some []) (Some "http://x/y")
  = "Ver http://x/y".
Proof. reflexivity. Qed.

Example preparar_dos_veces :
  preparar_mensaje "{a}-{a}-{b}" "1" (Some [("a", VInt (-12)); ("b", VBool true)]) None
  = "-12--12-True".
Proof. reflexivity. Qed.

(** A value may bring in a placeholder that a later key then fills. *)
Example preparar_encadenado :
  preparar_mensaje "{a}" "1" (Some [("a", VStr "{b}"); ("b", VStr "x")]) None = "x".
Proof. reflexivity. Qed.

(** C6, counterexample: with the empty string supplied as link, the
    placeholder that remains is not replaced, whereas the specification's
    wording replaces it (by nothing). *)
Lemma C6_link_vacio_no_reemplaza :
  preparar_mensaje "Ver {link}" "3011234567" None (Some "") = "Ver {link}"
  /\ render_spec "Ver {link}" (filas_de None) (Some "") = "Ver "
  /\ preparar_mensaje "Ver {link}" "3011234567" None (Some "")
     <> render_spec "Ver {link}" (filas_de None) (Some "").
Proof.
  split; [reflexivity | split; [reflexivity | ]].
  intros H. vm_compute in H. discriminate H.
Qed.

(** C6, amended: [preparar_mensaje] replaces every occurrence of [{key}] by
    the stringified value for each key of the row, then replaces [{link}]
    when it remains and a non-empty link was supplied; a template none of
    whose placeholders is matched comes back verbatim; and the two
    renderings quoted by the specification hold. *)
Theorem C6_preparar_mensaje_render :
  (forall (mensaje numero : string) (row_data : option (Dict PyValor))
          (link_dinamico : option string),
      preparar_mensaje mensaje numero row_data link_dinamico
      = render_spec mensaje (filas_de row_data) (link_no_vacio link_dinamico))
  /\ (forall (mensaje numero : string) (row_data : option (Dict PyValor))
             (link_dinamico : option string),
        Forall (fun kv => PyStr.contiene ("{" ++ fst kv ++ "}") mensaje = false)
               (filas_de row_data) ->
        str_verdadero link_dinamico && PyStr.contiene "{link}" mensaje = false ->
        preparar_mensaje mensaje numero row_data link_dinamico = mensaje)
  /\ preparar_mensaje "Hola {nombre}" "3011234567"
       (Some [("nombre", VStr "Ana")]) None = "Hola Ana"
  /\ preparar_mensaje "Ver {link}" "3011234567" (Some []) (Some "http://x/y")
     = "Ver http://x/y".
Proof.
  split; [| split; [| split; reflexivity]].
  - intros mensaje numero row_data link_dinamico.
    unfold preparar_mensaje, render_spec, link_no_vacio. cbv zeta.
    assert (Hfilas :
      match row_data with
      | Some ((_ :: _) as filas) => fold_left reemplazar_columna filas mensaje
      | _ => mensaje
      end
      = fold_left
          (fun acc kv => PyStr.replace ("{" ++ fst kv ++ "}") (py_str (snd kv)) acc)
          (filas_de row_data) mensaje).
    { destruct row_data as [[| kv filas] |]; try reflexivity.
      apply fold_columnas_sin_guarda. }
    rewrite Hfilas.
    destruct link_dinamico as [link |]; [| reflexivity].
    destruct (str_verdadero (Some link)); reflexivity.
  - intros mensaje numero row_data link_dinamico Hfilas Hlink.
    unfold preparar_mensaje. cbv zeta.
    assert (Hm :
      match row_data with
      | Some ((_ :: _) as filas) => fold_left reemplazar_columna filas mensaje
      | _ => mensaje
      end = mensaje).
    { destruct row_data as [[| kv filas] |]; try reflexivity.
      now apply fold_columnas_sin_coincidencias. }
    rewrite Hm. destruct link_dinamico as [link |]; [| reflexivity].
    now rewrite Hlink.
Qed.

(** ** Signatures *)

Section Firma.

Lemma bytes_le_length n x : length (MD5.bytes_le n x) = n.
Proof. revert x. induction n as [| n IH]; intros x; cbn; [reflexivity | now rewrite IH]. Qed.

Lemma digest_length msg : length (MD5.digest msg) = 16%nat.
Proof.
  unfold MD5.digest. cbv zeta.
  rewrite !length_app, !bytes_le_length. reflexivity.
Qed.

Lemma hex_length bs : String.length (MD5.hex bs) = (2 * length bs)%nat.
Proof. induction bs as [| b bs IH]; cbn [MD5.hex String.length length]; lia. Qed.

Lemma digito_hex_minuscula n : es_hex_minuscula (MD5.digito_hex n) = true.
Proof.
  unfold MD5.digito_hex.
  assert (Hk : (Z.to_nat (n mod 16) < 16)%nat)
    by (pose proof (Z.mod_pos_bound n 16 eq_refl); lia).
  revert Hk. generalize (Z.to_nat (n mod 16)). intros k Hk.
  do 16 (destruct k as [| k]; [reflexivity |]). lia.
Qed.

Lemma hex_minusculas bs :
  forallb es_hex_minuscula (list_ascii_of_string (MD5.hex bs)) = true.
Proof.
  induction bs as [| b bs IH]; [reflexivity |].
  cbn [MD5.hex list_ascii_of_string forallb].
  now rewrite !digito_hex_minuscula, IH.
Qed.

End Firma.

(** The test suite of RFC 1321, and a message longer than one block. *)
Example md5_vacio : MD5.hexdigest "" = "d41d8cd98f00b204e9800998ecf8427e".
Proof. vm_compute. reflexivity. Qed.

Example md5_abc : MD5.hexdigest "abc" = "900150983cd24fb0d6963f7d28e17f72".
Proof. vm_compute. reflexivity. Qed.

Example md5_message_digest :
  MD5.hexdigest "message digest" = "f96b697d7cb7938d525a2f31aaf161d0".
Proof. vm_compute. reflexivity. Qed.

Example md5_ochenta_digitos :
  MD5.hexdigest
    "12345678901234567890123456789012345678901234567890123456789012345678901234567890"
  = "57edf4a22be3c955ac49da2e2107b67a".
Proof. vm_compute. reflexivity. Qed.

(** The signature of the predefined main carrier at a fixed timestamp. *)
Example sign_principal :
  forall ahora,
    generar_sign op_principal (Some "20240101120000") ahora
    = ("b827a6202e3c3bac6113a9151d56f103", "20240101120000").
Proof. intros ahora. vm_compute. reflexivity. Qed.

(** C8: [generar_sign] returns the MD5 digest of account id, secret and
    timestamp concatenated, as 32 lowercase hexadecimal digits, paired with
    the timestamp it used; the result depends on nothing but those three
    strings. *)
Theorem C8_generar_sign_md5 :
  forall (op : OperadorConfig) (timestamp ahora : string),
    generar_sign op (Some timestamp) ahora
    = (MD5.hexdigest (cuenta op ++ contraseña op ++ timestamp), timestamp)
    /\ String.length (fst (generar_sign op (Some timestamp) ahora)) = 32%nat
    /\ forallb es_hex_minuscula
         (list_ascii_of_string (fst (generar_sign op (Some timestamp) ahora))) = true
    /\ (forall (op' : OperadorConfig) (ahora' : string),
          cuenta op' = cuenta op ->
          contraseña op' = contraseña op ->
          generar_sign op' (Some timestamp) ahora'
          = generar_sign op (Some timestamp) ahora).
Proof.
  intros op timestamp ahora.
  assert (Heq : generar_sign op (Some timestamp) ahora
                = (MD5.hexdigest (cuenta op ++ contraseña op ++ timestamp), timestamp))
    by reflexivity.
  split; [exact Heq |]. rewrite Heq. cbn [fst]. unfold MD5.hexdigest.
  split; [| split].
  - rewrite hex_length, digest_length. reflexivity.
  - apply hex_minusculas.
  - intros op' ahora' Hc Hp. unfold generar_sign. cbv zeta. now rewrite Hc, Hp.
Qed.

(** ** Carrier selection *)

Section Selector.

Lemma insertar_permutacion x l :
  Permutation (insertar_por_prioridad x l) (x :: l).
Proof.
  induction l as [| y l IH]; cbn [insertar_por_prioridad]; [reflexivity |].
  destruct (prioridad x <=? prioridad y); [reflexivity |].
  rewrite IH. apply perm_swap.
Qed.

Lemma ordenar_permutacion l : Permutation (ordenar_por_prioridad l) l.
Proof.
  induction l as [| x l IH]; cbn [ordenar_por_prioridad]; [reflexivity |].
  rewrite insertar_permutacion. now constructor.
Qed.

Lemma ordenar_length l : length (ordenar_por_prioridad l) = length l.
Proof. apply Permutation_length, ordenar_permutacion. Qed.

Lemma insertar_ordenada x l :
  StronglySorted prioridad_le l ->
  StronglySorted prioridad_le (insertar_por_prioridad x l).
Proof.
  induction 1 as [| y l Hl IH Hy]; cbn [insertar_por_prioridad].
  - repeat constructor.
  - destruct (prioridad x <=? prioridad y) eqn:Hxy.
    + apply Z.leb_le in Hxy. constructor; [now constructor |].
      constructor; [exact Hxy |].
      eapply List.Forall_impl; [| exact Hy].
      intros z Hz. unfold prioridad_le in *. lia.
    + apply Z.leb_gt in Hxy. constructor; [exact IH |].
      eapply Permutation_Forall; [symmetry; apply insertar_permutacion |].
      constructor; [unfold prioridad_le; lia | exact Hy].
Qed.

Lemma ordenar_ordenada l : StronglySorted prioridad_le (ordenar_por_prioridad l).
Proof.
  induction l as [| x l IH]; cbn [ordenar_por_prioridad]; [constructor |].
  now apply insertar_ordenada.
Qed.

(** The sort is stable: carriers of one priority come out in the order
    they went in. *)
Lemma insertar_estable p x l :
  List.filter (fun op => prioridad op =? p) (insertar_por_prioridad x l)
  = List.filter (fun op => prioridad op =? p) (x :: l).
Proof.
  induction l as [| y l IH]; cbn [insertar_por_prioridad]; [reflexivity |].
  destruct (prioridad x <=? prioridad y) eqn:Hxy; [reflexivity |].
  apply Z.leb_gt in Hxy.
  cbn [List.filter] in *. rewrite IH.
  destruct (prioridad x =? p) eqn:Hx, (prioridad y =? p) eqn:Hy; try reflexivity.
  apply Z.eqb_eq in Hx, Hy. lia.
Qed.

Lemma ordenar_estable p l :
  List.filter (fun op => prioridad op =? p) (ordenar_por_prioridad l)
  = List.filter (fun op => prioridad op =? p) l.
Proof.
  induction l as [| x l IH]; cbn [ordenar_por_prioridad]; [reflexivity |].
  rewrite insertar_estable. cbn [List.filter]. now rewrite IH.
Qed.

(** Reading a list at the indices 0, 1, ... gives back its elements. *)
Lemma nth_error_seq {A : Type} (l : list A) :
  map (nth_error l) (seq 0 (length l)) = map Some l.
Proof.
  induction l as [| x l IH]; [reflexivity |].
  cbn [length seq map nth_error]. f_equal.
  rewrite <- seq_shift, map_map. exact IH.
Qed.

Lemma habilitados_vacio_sii ops :
  operadores_habilitados ops = []
  <-> Forall (fun op => habilitado op = false) (dict_values ops).
Proof.
  unfold operadores_habilitados.
  induction (dict_values ops) as [| op l IH]; cbn [List.filter].
  - split; [constructor | reflexivity].
  - destruct (habilitado op) eqn:Hop.
    + split; [discriminate | intros H; inversion H; congruence].
    + rewrite IH. split; [now constructor | intros H; now inversion H].
Qed.

Lemma dict_get_en_valores {V : Type} (d : Dict V) k v :
  dict_get d k = Some v -> In v (dict_values d).
Proof.
  induction d as [| [k' v'] d IH]; cbn [dict_get dict_values map snd]; [discriminate |].
  destruct (String.eqb k k'); [intros [= ->]; now left | intros H; right; now apply IH].
Qed.

(** With at least one carrier enabled the selector reads the sorted list
    at [intento mod N], an index always in range. *)
Lemma siguiente_con_habilitados ops intento fallido :
  operadores_habilitados ops <> [] ->
  exists op,
    obtener_operador_siguiente ops intento fallido = Bien op
    /\ nth_error (ordenar_por_prioridad (operadores_habilitados ops))
         (Z.to_nat
            (intento mod Z.of_nat (length (operadores_habilitados ops))))
       = Some op.
Proof.
  intros Hne. unfold obtener_operador_siguiente. cbv zeta.
  destruct (operadores_habilitados ops) as [| a hab] eqn:Hhab; [congruence |].
  rewrite ordenar_length.
  set (N := Z.of_nat (length (a :: hab))).
  assert (HN : 0 < N) by (subst N; cbn [length]; lia).
  pose proof (Z.mod_pos_bound intento N HN) as Hidx.
  destruct (nth_error (ordenar_por_prioridad (a :: hab)) (Z.to_nat (intento mod N)))
    as [op |] eqn:Hnth.
  - exists op. split; reflexivity.
  - apply nth_error_None in Hnth. rewrite ordenar_length in Hnth.
    subst N. lia.
Qed.

(** The hint plays no part in the selection. *)
Lemma siguiente_sin_pista ops intento f1 f2 :
  obtener_operador_siguiente ops intento f1
  = obtener_operador_siguiente ops intento f2.
Proof. unfold obtener_operador_siguiente. reflexivity. Qed.

End Selector.

Example siguiente_predefinido :
  exists op, obtener_operador_siguiente OPERADORES_PREDEFINIDOS 4 (Some "principal")
             = Bien op /\ operador op = "principal".
Proof. eexists. split; reflexivity. Qed.

Example siguiente_tres_habilitados :
  map (fun i => match obtener_operador_siguiente registro_tres_habilitados i None with
                | Bien op => operador op
                | Lanza _ => "?"
                end) [0; 1; 2; 3; 4; -1]
  = ["principal"; "backup1"; "backup2"; "principal"; "backup1"; "backup2"].
Proof. reflexivity. Qed.

(** Ties keep the registration order: [b] before [a]. *)
Example siguiente_empate :
  map (fun i => match obtener_operador_siguiente registro_empate i None with
                | Bien op => operador op
                | Lanza _ => "?"
                end) [0; 1; 2]
  = ["principal"; "b"; "a"].
Proof. reflexivity. Qed.

(** With no entry named [principal] and nothing enabled, the selector
    raises [KeyError]. *)
Example siguiente_sin_principal :
  obtener_operador_siguiente [] 0 None = Lanza (KeyError "principal").
Proof. reflexivity. Qed.

(** C1, counterexample: after the main carrier of the predefined registry is
    switched off no carrier is enabled, and the selector still returns a
    carrier configuration, that of [principal], instead of failing. *)
Lemma C1_sin_habilitados_devuelve_principal :
  operadores_habilitados registro_sin_habilitados = []
  /\ exists op,
       obtener_operador_siguiente registro_sin_habilitados 0 None = Bien op
       /\ operador op = "principal" /\ habilitado op = false.
Proof. split; [reflexivity |]. eexists. repeat split. Qed.

(** C1, amended: when no carrier is enabled, [obtener_operador_siguiente]
    returns, for every attempt number and hint, the configuration registered
    under [principal] (itself disabled); it fails, with a [KeyError], only
    when the registry has no entry of that name. *)
Theorem C1_sin_habilitados_principal_o_keyerror :
  forall (ops : Dict OperadorConfig) (intento : Z) (fallido : option string),
    Forall (fun op => habilitado op = false) (dict_values ops) ->
    match obtener_operador ops "principal" with
    | Some op =>
        obtener_operador_siguiente ops intento fallido = Bien op
        /\ habilitado op = false
    | None =>
        obtener_operador_siguiente ops intento fallido = Lanza (KeyError "principal")
    end.
Proof.
  intros ops intento fallido Hnone.
  pose proof Hnone as Hvacio. apply habilitados_vacio_sii in Hvacio.
  unfold obtener_operador_siguiente, obtener_operador. cbv zeta. rewrite Hvacio.
  destruct (dict_get ops "principal") as [op |] eqn:Hget; [| reflexivity].
  split; [reflexivity |].
  apply dict_get_en_valores in Hget.
  rewrite List.Forall_forall in Hnone. now apply Hnone.
Qed.

Lemma C1_sin_habilitados_testigo :
  Forall (fun op => habilitado op = false) (dict_values registro_sin_habilitados)
  /\ match obtener_operador registro_sin_habilitados "principal" with
     | Some op =>
         obtener_operador_siguiente registro_sin_habilitados 3 (Some "backup1") = Bien op
         /\ habilitado op = false
     | None =>
         obtener_operador_siguiente registro_sin_habilitados 3 (Some "backup1")
         = Lanza (KeyError "principal")
     end.
Proof.
  assert (H : Forall (fun op => habilitado op = false)
                (dict_values registro_sin_habilitados))
    by (repeat constructor).
  split; [exact H |].
  exact (C1_sin_habilitados_principal_o_keyerror
           registro_sin_habilitados 3 (Some "backup1") H).
Defined.

(** C4: with N >= 1 carriers enabled, the attempts 0 .. N-1 return the
    enabled carriers sorted by ascending priority, one per attempt: the
    carriers visited are a rearrangement of the enabled ones, each met as
    often as it is registered, and attempt 0 returns an enabled carrier of
    the least priority value. *)
Theorem C4_rotacion_por_prioridad :
  forall (ops : Dict OperadorConfig) (fallido : option string),
    (1 <= length (operadores_habilitados ops))%nat ->
    map (fun i => obtener_operador_siguiente ops (Z.of_nat i) fallido)
        (seq 0 (length (operadores_habilitados ops)))
    = map Bien (ordenar_por_prioridad (operadores_habilitados ops))
    /\ Permutation (ordenar_por_prioridad (operadores_habilitados ops))
                   (operadores_habilitados ops)
    /\ StronglySorted prioridad_le
         (ordenar_por_prioridad (operadores_habilitados ops))
    /\ exists op0,
         obtener_operador_siguiente ops 0 fallido = Bien op0
         /\ In op0 (operadores_habilitados ops)
         /\ Forall (prioridad_le op0) (operadores_habilitados ops).
Proof.
  intros ops fallido HN.
  assert (Hne : operadores_habilitados ops <> [])
    by (intros H; rewrite H in HN; cbn in HN; lia).
  set (hab := operadores_habilitados ops) in *.
  set (ord := ordenar_por_prioridad hab).
  pose proof (ordenar_permutacion hab) as Hperm. fold ord in Hperm.
  pose proof (ordenar_ordenada hab) as Hsort. fold ord in Hsort.
  split; [| split; [exact Hperm | split; [exact Hsort |]]].
  - transitivity
      (map (fun o : option OperadorConfig =>
              match o with Some op => Bien op | None => Lanza IndexError end)
           (map (nth_error ord) (seq 0 (length hab)))).
    + rewrite map_map. apply map_ext_in. intros i Hi.
      apply in_seq in Hi.
      destruct (siguiente_con_habilitados ops (Z.of_nat i) fallido Hne)
        as (op & Hop & Hnth).
      fold hab in Hnth. fold ord in Hnth.
      rewrite Z.mod_small in Hnth by lia. rewrite Nat2Z.id in Hnth.
      now rewrite Hop, Hnth.
    + replace (length hab) with (length ord) by apply ordenar_length.
      rewrite nth_error_seq, map_map. reflexivity.
  - destruct (siguiente_con_habilitados ops 0 fallido Hne) as (op0 & Hop & Hnth).
    fold hab in Hnth. fold ord in Hnth.
    rewrite Z.mod_0_l in Hnth by lia. cbn [Z.to_nat] in Hnth.
    exists op0. split; [exact Hop |].
    destruct ord as [| x resto] eqn:Hord; [discriminate |].
    cbn [nth_error] in Hnth. injection Hnth as ->.
    split.
    + eapply Permutation_in; [exact Hperm | now left].
    + eapply Permutation_Forall; [exact Hperm |].
      inversion Hsort; subst. constructor; [unfold prioridad_le; lia | assumption].
Qed.

Lemma C4_rotacion_testigo :
  (1 <= length (operadores_habilitados registro_tres_habilitados))%nat
  /\ map (fun i => obtener_operador_siguiente registro_tres_habilitados (Z.of_nat i) None)
         (seq 0 (length (operadores_habilitados registro_tres_habilitados)))
     = map Bien (ordenar_por_prioridad (operadores_habilitados registro_tres_habilitados)).
Proof.
  assert (H : (1 <= length (operadores_habilitados registro_tres_habilitados))%nat)
    by (vm_compute; lia).
  split; [exact H |].
  exact (proj1 (C4_rotacion_por_prioridad registro_tres_habilitados None H)).
Defined.

(** X1: among the enabled carriers of one priority, the selector's order is
    the order of registration: ties are broken by insertion order. *)
Theorem X1_empates_en_orden_de_registro :
  forall (ops : Dict OperadorConfig) (p : Z),
    List.filter (fun op => prioridad op =? p)
      (ordenar_por_prioridad (operadores_habilitados ops))
    = List.filter (fun op => prioridad op =? p) (operadores_habilitados ops).
Proof. intros ops p. apply ordenar_estable. Qed.

(** X2: the selection is periodic in the attempt number, with the number of
    enabled carriers as period: the rotation goes round all of them. *)
Theorem X2_rotacion_periodica :
  forall (ops : Dict OperadorConfig) (intento : Z) (fallido : option string),
    obtener_operador_siguiente ops
      (intento + Z.of_nat (length (operadores_habilitados ops))) fallido
    = obtener_operador_siguiente ops intento fallido.
Proof.
  intros ops intento fallido. unfold obtener_operador_siguiente. cbv zeta.
  destruct (operadores_habilitados ops) as [| a hab]; [reflexivity |].
  rewrite ordenar_length.
  replace (intento + Z.of_nat (length (a :: hab)))
    with (intento + 1 * Z.of_nat (length (a :: hab))) by lia.
  now rewrite Z_mod_plus_full.
Qed.

(** ** The registry *)

Section Registro.

Context {V : Type}.

Lemma dict_get_set_eq (d : Dict V) k v : dict_get (dict_set d k v) k = Some v.
Proof.
  induction d as [| [k' v'] d IH]; cbn [dict_set dict_get].
  - now rewrite String.eqb_refl.
  - destruct (String.eqb k k') eqn:Hk; cbn [dict_get].
    + now rewrite String.eqb_refl.
    + now rewrite Hk.
Qed.

Lemma dict_get_set_ne (d : Dict V) k k' v :
  k <> k' -> dict_get (dict_set d k v) k' = dict_get d k'.
Proof.
  intros Hne. induction d as [| [k0 v0] d IH]; cbn [dict_set dict_get].
  - apply not_eq_sym, String.eqb_neq in Hne. now rewrite Hne.
  - destruct (String.eqb k k0) eqn:Hk; cbn [dict_get].
    + apply String.eqb_eq in Hk. subst k0.
      apply not_eq_sym, String.eqb_neq in Hne. now rewrite Hne.
    + destruct (String.eqb k' k0); [reflexivity | exact IH].
Qed.

(** Assigning to a key keeps the keys' order; a new key goes last. *)
Lemma dict_set_claves (d : Dict V) k v :
  map fst (dict_set d k v)
  = match dict_get d k with
    | Some _ => map fst d
    | None => (map fst d ++ [k])%list
    end.
Proof.
  induction d as [| [k' v'] d IH]; cbn [dict_set dict_get map fst app]; [reflexivity |].
  destruct (String.eqb k k') eqn:Hk; cbn [map fst].
  - apply String.eqb_eq in Hk. now subst.
  - rewrite IH. now destruct (dict_get d k).
Qed.

End Registro.

(** X3: [habilitar_operador] on an unknown name returns [False] and leaves
    the registry as it was; on a known name it returns [True], sets that
    carrier's flag, and changes neither another entry nor the order. *)
Theorem X3_habilitar_operador :
  forall (ops : Dict OperadorConfig) (nombre : string) (h : bool),
    match obtener_operador ops nombre with
    | None => habilitar_operador ops nombre h = (ops, false)
    | Some op =>
        snd (habilitar_operador ops nombre h) = true
        /\ obtener_operador (fst (habilitar_operador ops nombre h)) nombre
           = Some (con_habilitado h op)
        /\ (forall otro, nombre <> otro ->
              obtener_operador (fst (habilitar_operador ops nombre h)) otro
              = obtener_operador ops otro)
        /\ map fst (fst (habilitar_operador ops nombre h)) = map fst ops
    end.
Proof.
  intros ops nombre h. unfold habilitar_operador, obtener_operador.
  destruct (dict_get ops nombre) as [op |] eqn:Hget; [| reflexivity].
  cbn [fst snd]. split; [reflexivity |].
  split; [apply dict_get_set_eq |].
  split; [intros otro Hne; now apply dict_get_set_ne |].
  now rewrite dict_set_claves, Hget.
Qed.

(** X4: [agregar_operador] registers the configuration under its own name,
    overwriting an entry of that name, and changes no other entry. *)
Theorem X4_agregar_operador :
  forall (ops : Dict OperadorConfig) (config : OperadorConfig),
    obtener_operador (agregar_operador ops config) (operador config) = Some config
    /\ forall otro, operador config <> otro ->
         obtener_operador (agregar_operador ops config) otro
         = obtener_operador ops otro.
Proof.
  intros ops config. unfold agregar_operador, obtener_operador.
  split; [apply dict_get_set_eq |].
  intros otro Hne. now apply dict_get_set_ne.
Qed.

(** ** The hint of the selector *)

Lemma procesar_items_sin_pista env (g : QueueItem -> option string) pendientes :
  forall st,
    procesar_items env st (map (fun it => con_it_operador (g it) it) pendientes)
    = procesar_items env st pendientes.
Proof.
  induction pendientes as [| item resto IH]; intros st; [reflexivity |].
  cbn [map procesar_items con_it_operador it_intentos it_operador it_id it_numero
       it_mensaje].
  destruct (obtener_operador_siguiente (operadores st) (it_intentos item) (g item))
    as [op | e] eqn:Hsel;
    change (obtener_operador_siguiente (operadores st) (it_intentos item)
              (it_operador item))
      with (obtener_operador_siguiente (operadores st) (it_intentos item) (g item));
    rewrite Hsel; [| reflexivity].
  destruct (enviar_sms_ahora env st (it_id item) (it_numero item) (it_mensaje item)
              (operador op) None None) as [st' r].
  apply IH.
Qed.

(** C5: the carrier returned by [obtener_operador_siguiente] is the same
    for any two values of the failed-carrier argument, [None] included; a
    pass of [procesar_cola], which passes the row's carrier as that
    argument, is therefore unchanged when the rows carry other carriers. *)
Theorem C5_pista_sin_efecto :
  (forall (ops : Dict OperadorConfig) (intento : Z) (f1 f2 : option string),
      obtener_operador_siguiente ops intento f1
      = obtener_operador_siguiente ops intento f2)
  /\ (forall (env : Entorno) (st : Estado) (pendientes : list QueueItem)
             (g : QueueItem -> option string),
        procesar_cola env st (map (fun it => con_it_operador (g it) it) pendientes)
        = procesar_cola env st pendientes).
Proof.
  split.
  - intros ops intento f1 f2. unfold obtener_operador_siguiente. reflexivity.
  - intros env st pendientes g.
    destruct pendientes as [| item resto]; [reflexivity |].
    unfold procesar_cola. cbn [map].
    change (con_it_operador (g item) item
              :: map (fun it => con_it_operador (g it) it) resto)
      with (map (fun it => con_it_operador (g it) it) (item :: resto)).
    apply procesar_items_sin_pista.
Qed.

(** ** One delivery attempt *)

Section Envio.

Variable env : Entorno.

(** The state once the invocation has been noted in the trace. *)
Lemma operadores_anotar_llamada ll st :
  operadores (anotar_llamada ll st) = operadores st.
Proof. reflexivity. Qed.

(** Unknown carrier: the call returns at line 65, before any collaborator
    is used. *)
Lemma enviar_desconocido st q n m o rd l :
  obtener_operador (operadores st) o = None ->
  enviar_sms_ahora env st q n m o rd l
  = (anotar_llamada (mkLlamada q n m o rd l) st, fallo n o "Operador no existe").
Proof.
  intros Hop. unfold enviar_sms_ahora. cbv zeta.
  rewrite operadores_anotar_llamada, Hop. reflexivity.
Qed.

(** Empty rendered message: one record, return at line 80. *)
Lemma enviar_vacio st q n m o rd l op :
  obtener_operador (operadores st) o = Some op ->
  PyStr.vacio (preparar_mensaje m n rd l) = true ->
  enviar_sms_ahora env st q n m o rd l
  = (actualizar_intento (anotar_llamada (mkLlamada q n m o rd l) st) q o "error"
       None (Some "Mensaje vacío después de procesar variables") None,
     fallo n o "Mensaje vacío").
Proof.
  intros Hop Hvacio. unfold enviar_sms_ahora. cbv zeta.
  rewrite operadores_anotar_llamada, Hop, Hvacio. reflexivity.
Qed.

Lemma actualizar_es_anotar st q o e ra err t :
  actualizar_intento st q o e ra err t
  = anotar_intentos [mkIntento q o e ra err t] st.
Proof. reflexivity. Qed.

Lemma anotar_intentos_dos a b st :
  anotar_intentos [b] (anotar_intentos [a] st) = anotar_intentos [a; b] st.
Proof.
  unfold anotar_intentos. cbn [operadores rate_limiters limitadores intentos_bd
                               posts llamadas].
  now rewrite <- app_assoc.
Qed.

(** Otherwise the limiter is acquired, one request is issued, and the
    database is called once, or twice when the write of the [enviado]
    record raises. *)
Lemma enviar_transmite st q n m o rd l op :
  obtener_operador (operadores st) o = Some op ->
  PyStr.vacio (preparar_mensaje m n rd l) = false ->
  exists pet nuevos r,
    enviar_sms_ahora env st q n m o rd l
    = (anotar_intentos nuevos
         (anotar_post pet
            (adquirir_limitador (anotar_llamada (mkLlamada q n m o rd l) st) o
               (max_por_minuto op))),
       r)
    /\ p_content pet = preparar_mensaje m n rd l
    /\ p_url pet = url_api op
    /\ Forall (fun i => i_queue_id i = q /\ i_operador i = o) nuevos
    /\ (length nuevos = 1 \/ length nuevos = 2)%nat.
Proof.
  intros Hop Hvacio. unfold enviar_sms_ahora. cbv zeta.
  rewrite operadores_anotar_llamada, Hop, Hvacio.
  destruct (generar_sign op None _) as [sign timestamp].
  match goal with
  | |- context [red env ?k ?p] => destruct (red env k p) as [resp ms | | e | e]
  end.
  - match goal with
    | |- context [bd_falla env ?k] => destruct (bd_falla env k) as [e |]
    end;
      rewrite !actualizar_es_anotar, ?anotar_intentos_dos;
      do 3 eexists; (split; [reflexivity |]); cbn [p_content p_url];
      (split; [reflexivity | split; [reflexivity |]]);
      (split; [repeat constructor | cbn [length]; lia]).
  - rewrite !actualizar_es_anotar.
    do 3 eexists; (split; [reflexivity |]); cbn [p_content p_url];
      (split; [reflexivity | split; [reflexivity |]]);
      (split; [repeat constructor | cbn [length]; lia]).
  - rewrite !actualizar_es_anotar.
    do 3 eexists; (split; [reflexivity |]); cbn [p_content p_url];
      (split; [reflexivity | split; [reflexivity |]]);
      (split; [repeat constructor | cbn [length]; lia]).
  - rewrite !actualizar_es_anotar.
    do 3 eexists; (split; [reflexivity |]); cbn [p_content p_url];
      (split; [reflexivity | split; [reflexivity |]]);
      (split; [repeat constructor | cbn [length]; lia]).
Qed.

Lemma adquirir_rate_limiters st o max :
  rate_limiters (adquirir_limitador st o max)
  = match rate_limiters st !! o with
    | Some _ => rate_limiters st
    | None => <[o := length (limitadores st)]> (rate_limiters st)
    end.
Proof.
  unfold adquirir_limitador.
  destruct (rate_limiters st !! o); reflexivity.
Qed.

Lemma adquirir_limitadores st o max :
  limitadores (adquirir_limitador st o max)
  = match rate_limiters st !! o with
    | Some loc => alter esperar loc (limitadores st)
    | None => (limitadores st ++ [esperar (RateLimiter_nuevo max)])%list
    end.
Proof.
  unfold adquirir_limitador.
  destruct (rate_limiters st !! o) as [loc |] eqn:Hloc.
  - cbn [limitadores]. now rewrite Hloc.
  - cbn [limitadores]. rewrite lookup_insert_eq.
    replace (length (limitadores st)) with (length (limitadores st) + 0)%nat
      at 1 by lia.
    rewrite alter_app_r. reflexivity.
Qed.

Lemma adquirir_resto st o max :
  operadores (adquirir_limitador st o max) = operadores st
  /\ intentos_bd (adquirir_limitador st o max) = intentos_bd st
  /\ posts (adquirir_limitador st o max) = posts st
  /\ llamadas (adquirir_limitador st o max) = llamadas st.
Proof.
  unfold adquirir_limitador.
  destruct (rate_limiters st !! o); repeat split.
Qed.

Lemma generar_sign_par op timestamp ahora :
  generar_sign op timestamp ahora
  = (MD5.hexdigest
       (cuenta op ++ contraseña op
          ++ match timestamp with Some t => t | None => ahora end),
     match timestamp with Some t => t | None => ahora end).
Proof. reflexivity. Qed.

Lemma posts_adquirir_anotar st ll o max :
  posts (adquirir_limitador (anotar_llamada ll st) o max) = posts st.
Proof.
  destruct (adquirir_resto (anotar_llamada ll st) o max) as (_ & _ & Hposts & _).
  exact Hposts.
Qed.

Lemma intentos_adquirir_anotar st ll o max :
  intentos_bd (adquirir_limitador (anotar_llamada ll st) o max) = intentos_bd st.
Proof.
  destruct (adquirir_resto (anotar_llamada ll st) o max) as (_ & Hbd & _ & _).
  exact Hbd.
Qed.

(** The request of an invocation that gets past validation, and what the
    invocation does with each way the transport and the write of the
    [enviado] record can end. *)
Lemma enviar_exacto st q n m o rd l op :
  obtener_operador (operadores st) o = Some op ->
  PyStr.vacio (preparar_mensaje m n rd l) = false ->
  let k := length (posts st) in
  let pet :=
    mkPeticion (url_api op) (cuenta op)
      (MD5.hexdigest (cuenta op ++ contraseña op ++ reloj env k)) (reloj env k)
      (sender_id op) (numero_formateado n) (preparar_mensaje m n rd l)
      (timeout_segundos op) in
  let st2 :=
    anotar_post pet
      (adquirir_limitador (anotar_llamada (mkLlamada q n m o rd l) st) o
         (max_por_minuto op)) in
  enviar_sms_ahora env st q n m o rd l
  = match red env k pet with
    | Responde response tiempo_ms =>
        let respuesta :=
          if es_json response then RJson (text response)
          else RTexto (text response) (status_code response) in
        match bd_falla env (length (intentos_bd st)) with
        | None =>
            (anotar_intentos
               [mkIntento q o "enviado" (Some respuesta) None (Some tiempo_ms)] st2,
             mkResultado true n o (Some respuesta) (Some tiempo_ms) None)
        | Some e =>
            (anotar_intentos
               [mkIntento q o "enviado" (Some respuesta) None (Some tiempo_ms);
                mkIntento q o "error" None (Some e) None] st2,
             fallo n o e)
        end
    | Timeout =>
        (anotar_intentos
           [mkIntento q o "error" None (Some "Timeout de conexión") None] st2,
         fallo n o "Timeout")
    | RequestException e =>
        (anotar_intentos [mkIntento q o "error" None (Some e) None] st2,
         fallo n o e)
    | OtraExcepcion e =>
        (anotar_intentos [mkIntento q o "error" None (Some e) None] st2,
         fallo n o e)
    end.
Proof.
  intros Hop Hvacio. cbv zeta. unfold enviar_sms_ahora. cbv zeta.
  rewrite operadores_anotar_llamada, Hop, Hvacio, generar_sign_par,
    posts_adquirir_anotar.
  cbn [anotar_post intentos_bd]. rewrite intentos_adquirir_anotar.
  destruct (red env _ _) as [resp ms | | e | e];
    [destruct (bd_falla env _) |..];
    rewrite !actualizar_es_anotar, ?anotar_intentos_dos; reflexivity.
Qed.

Lemma posts_anotar_intentos nuevos st :
  posts (anotar_intentos nuevos st) = posts st.
Proof. reflexivity. Qed.

Lemma numero_formateado_prefijo n :
  PyStr.startswith "57" (numero_formateado n) = true.
Proof.
  unfold numero_formateado.
  destruct (PyStr.startswith "57" n) eqn:Hn; [exact Hn |].
  destruct n; reflexivity.
Qed.

Lemma numero_formateado_idempotente n :
  numero_formateado (numero_formateado n) = numero_formateado n.
Proof.
  unfold numero_formateado at 1. now rewrite numero_formateado_prefijo.
Qed.

(** What one invocation does to each component of the state. *)
Lemma enviar_marco st q n m o rd l :
  let st' := fst (enviar_sms_ahora env st q n m o rd l) in
  operadores st' = operadores st
  /\ llamadas st' = (llamadas st ++ [mkLlamada q n m o rd l])%list
  /\ match llega_al_limitador st n m o rd l with
     | Some op =>
         rate_limiters st'
         = rate_limiters (adquirir_limitador st o (max_por_minuto op))
         /\ limitadores st'
            = limitadores (adquirir_limitador st o (max_por_minuto op))
         /\ exists pet, posts st' = (posts st ++ [pet])%list
                        /\ p_content pet = preparar_mensaje m n rd l
     | None =>
         rate_limiters st' = rate_limiters st
         /\ limitadores st' = limitadores st
         /\ posts st' = posts st
     end
  /\ match obtener_operador (operadores st) o with
     | Some _ =>
         exists i,
           i_queue_id i = q /\ i_operador i = o
           /\ (intentos_bd st' = (intentos_bd st ++ [i])%list
               \/ exists e,
                    bd_falla env (length (intentos_bd st)) = Some e
                    /\ i_estado i = "enviado"
                    /\ PyStr.vacio (preparar_mensaje m n rd l) = false
                    /\ intentos_bd st'
                       = (intentos_bd st
                            ++ [i; mkIntento q o "error" None (Some e) None])%list)
     | None => intentos_bd st' = intentos_bd st
     end.
Proof.
  cbv zeta. unfold llega_al_limitador.
  destruct (obtener_operador (operadores st) o) as [op |] eqn:Hop.
  - destruct (PyStr.vacio (preparar_mensaje m n rd l)) eqn:Hvacio.
    + rewrite (enviar_vacio st q n m o rd l op Hop Hvacio). cbn.
      repeat split. eexists.
      refine (conj _ (conj _ (or_introl eq_refl))); reflexivity.
    + assert (Hregs :
                exists i,
                  i_queue_id i = q /\ i_operador i = o
                  /\ (intentos_bd (fst (enviar_sms_ahora env st q n m o rd l))
                      = (intentos_bd st ++ [i])%list
                      \/ exists e,
                           bd_falla env (length (intentos_bd st)) = Some e
                           /\ i_estado i = "enviado"
                           /\ false = false
                           /\ intentos_bd (fst (enviar_sms_ahora env st q n m o rd l))
                              = (intentos_bd st
                                   ++ [i; mkIntento q o "error" None (Some e) None])%list)).
      { pose proof (enviar_exacto st q n m o rd l op Hop Hvacio) as Hex.
        cbv zeta in Hex. rewrite Hex. clear Hex.
        pose proof (intentos_adquirir_anotar st (mkLlamada q n m o rd l) o
                      (max_por_minuto op)) as Hbd.
        destruct (red env _ _) as [resp ms | | e | e];
          [destruct (bd_falla env (length (intentos_bd st))) as [e |] eqn:Hfalla |..];
          cbn [fst anotar_intentos anotar_post intentos_bd]; rewrite Hbd.
        - eexists. refine (conj _ (conj _ (or_intror _))); [| | exists e];
            [| | refine (conj eq_refl (conj _ (conj eq_refl eq_refl)))];
            reflexivity.
        - eexists. refine (conj _ (conj _ (or_introl eq_refl))); reflexivity.
        - eexists. refine (conj _ (conj _ (or_introl eq_refl))); reflexivity.
        - eexists. refine (conj _ (conj _ (or_introl eq_refl))); reflexivity.
        - eexists. refine (conj _ (conj _ (or_introl eq_refl))); reflexivity. }
      destruct (enviar_transmite st q n m o rd l op Hop Hvacio)
        as (pet & nuevos & r & Heq & Hcont & _ & Hnuevos & Hlen).
      revert Hregs. rewrite Heq. intros Hregs.
      set (ll := mkLlamada q n m o rd l).
      destruct (adquirir_resto (anotar_llamada ll st) o (max_por_minuto op))
        as (Hops & Hbd & Hposts & Hll).
      cbn [fst anotar_intentos anotar_post operadores llamadas
           rate_limiters limitadores posts intentos_bd].
      rewrite Hops, Hbd, Hposts, Hll, !adquirir_rate_limiters,
        !adquirir_limitadores.
      cbn [anotar_llamada operadores llamadas rate_limiters limitadores posts
           intentos_bd].
      split; [reflexivity |]. split; [reflexivity |].
      split.
      * split; [reflexivity |]. split; [reflexivity |].
        exists pet. split; [reflexivity | exact Hcont].
      * cbn [fst anotar_intentos anotar_post intentos_bd] in Hregs.
        rewrite intentos_adquirir_anotar in Hregs. exact Hregs.
  - rewrite (enviar_desconocido st q n m o rd l Hop). cbn. repeat split.
Qed.

(** The requests after an invocation: one more, built from the carrier's
    configuration, when the call gets past validation, and none otherwise. *)
Lemma enviar_peticion st q n m o rd l :
  posts (fst (enviar_sms_ahora env st q n m o rd l))
  = match llega_al_limitador st n m o rd l with
    | Some op =>
        (posts st
           ++ [mkPeticion (url_api op) (cuenta op)
                 (MD5.hexdigest
                    (cuenta op ++ contraseña op ++ reloj env (length (posts st))))
                 (reloj env (length (posts st))) (sender_id op)
                 (numero_formateado n) (preparar_mensaje m n rd l)
                 (timeout_segundos op)])%list
    | None => posts st
    end.
Proof.
  unfold llega_al_limitador.
  destruct (obtener_operador (operadores st) o) as [op |] eqn:Hop.
  - destruct (PyStr.vacio (preparar_mensaje m n rd l)) eqn:Hvacio.
    + now rewrite (enviar_vacio st q n m o rd l op Hop Hvacio).
    + pose proof (enviar_exacto st q n m o rd l op Hop Hvacio) as Hex.
      cbv zeta in Hex. rewrite Hex. clear Hex.
      destruct (red env _ _); [destruct (bd_falla env _) |..]; cbn [fst];
        rewrite posts_anotar_intentos; cbn [anotar_post posts];
        rewrite posts_adquirir_anotar; reflexivity.
  - now rewrite (enviar_desconocido st q n m o rd l Hop).
Qed.

End Envio.

(** A delivery to the predefined main carrier over [env_ok]. *)
Example envio_entregado :
  let '(st, r) :=
    enviar_sms_ahora env_ok inicial 1 "3011234567" "Hola {nombre}" "principal"
      (Some [("nombre", VStr "Ana")]) None in
  success r = true
  /\ map p_content (posts st) = ["Hola Ana"]
  /\ map p_numbers (posts st) = ["573011234567"]
  /\ map i_estado (intentos_bd st) = ["enviado"].
Proof. vm_compute. repeat split. Qed.


(** The network answers, but the write of the [enviado] record raises: the
    catch-all handler writes a second record and the call reports failure. *)
Example envio_escritura_falla :
  let env := mkEntorno (fun _ _ => Responde respuesta_ok 12)
               (fun _ => "20240101120000") (fun _ => Some "database is locked") in
  let '(st, r) :=
    enviar_sms_ahora env inicial 1 "3011234567" "Hola" "principal" None None in
  success r = false
  /\ r_error r = Some "database is locked"
  /\ map i_estado (intentos_bd st) = ["enviado"; "error"]
  /\ length (posts st) = 1%nat.
Proof. vm_compute. repeat split. Qed.


(** C7: on a registered carrier, when the rendered message is empty the
    call reports failure, persists one record in state [error] carrying the
    empty-message text, and issues no request; no rate limiter is touched. *)
Theorem C7_mensaje_vacio_sin_red :
  forall (env : Entorno) (st : Estado) (queue_id : Z)
         (numero mensaje operador_nombre : string)
         (row_data : option (Dict PyValor)) (link_dinamico : option string)
         (op : OperadorConfig),
    obtener_operador (operadores st) operador_nombre = Some op ->
    preparar_mensaje mensaje numero row_data link_dinamico = "" ->
    success
      (snd (enviar_sms_ahora env st queue_id numero mensaje operador_nombre
              row_data link_dinamico)) = false
    /\ r_error
         (snd (enviar_sms_ahora env st queue_id numero mensaje operador_nombre
                 row_data link_dinamico)) = Some "Mensaje vacío"
    /\ intentos_bd
         (fst (enviar_sms_ahora env st queue_id numero mensaje operador_nombre
                 row_data link_dinamico))
       = (intentos_bd st
            ++ [mkIntento queue_id operador_nombre "error" None
                  (Some "Mensaje vacío después de procesar variables") None])%list
    /\ posts
         (fst (enviar_sms_ahora env st queue_id numero mensaje operador_nombre
                 row_data link_dinamico)) = posts st
    /\ rate_limiters
         (fst (enviar_sms_ahora env st queue_id numero mensaje operador_nombre
                 row_data link_dinamico)) = rate_limiters st
    /\ limitadores
         (fst (enviar_sms_ahora env st queue_id numero mensaje operador_nombre
                 row_data link_dinamico)) = limitadores st.
Proof.
  intros env st queue_id numero mensaje operador_nombre row_data link_dinamico op
         Hop Hvacio.
  assert (Hv : PyStr.vacio (preparar_mensaje mensaje numero row_data link_dinamico)
               = true) by now rewrite Hvacio.
  rewrite (enviar_vacio env st queue_id numero mensaje operador_nombre row_data
             link_dinamico op Hop Hv).
  cbn. repeat split.
Qed.

Lemma C7_mensaje_vacio_testigo :
  preparar_mensaje "{saludo}" "3011234567" (Some [("saludo", VStr "")]) None = ""
  /\ posts
       (fst (enviar_sms_ahora env_ok inicial 7 "3011234567" "{saludo}" "principal"
               (Some [("saludo", VStr "")]) None))
     = posts inicial.
Proof.
  split; [reflexivity |].
  exact (proj1 (proj2 (proj2 (proj2
           (C7_mensaje_vacio_sin_red env_ok inicial 7 "3011234567" "{saludo}"
              "principal" (Some [("saludo", VStr "")]) None op_principal
              eq_refl eq_refl))))).
Defined.

(** ** Rate limiters: one shared instance per carrier *)

Section Limitadores.

Variable env : Entorno.

Lemma uno_a_uno_mismo st st' :
  rate_limiters st' = rate_limiters st ->
  limitadores st' = limitadores st ->
  limitadores_uno_a_uno st -> limitadores_uno_a_uno st'.
Proof.
  unfold limitadores_uno_a_uno. intros -> ->. exact (fun H => H).
Qed.

Lemma uno_a_uno_inicial : limitadores_uno_a_uno inicial.
Proof.
  unfold limitadores_uno_a_uno, inicial. cbn [rate_limiters limitadores length].
  repeat split.
  - intros nombre l H. rewrite lookup_empty in H. discriminate H.
  - intros n1 n2 l H. rewrite lookup_empty in H. discriminate H.
  - intros l H. lia.
Qed.

(** Acquiring keeps the correspondence: an existing binding is reused as
    it is, and a new object goes under a name that held none. *)
Lemma uno_a_uno_adquirir st o max :
  limitadores_uno_a_uno st ->
  limitadores_uno_a_uno (adquirir_limitador st o max).
Proof.
  intros (Hdentro & Hiny & Hsobre).
  unfold limitadores_uno_a_uno.
  rewrite adquirir_rate_limiters, adquirir_limitadores.
  destruct (rate_limiters st !! o) as [loc |] eqn:Hloc.
  - rewrite length_alter. repeat split; assumption.
  - rewrite length_app. cbn [length].
    repeat split.
    + intros nombre l Hl. apply lookup_insert_Some in Hl as [[_ <-] | [_ Hl]].
      * lia.
      * apply Hdentro in Hl. lia.
    + intros n1 n2 l H1 H2.
      apply lookup_insert_Some in H1 as [[<- <-] | [Hne1 H1]];
        apply lookup_insert_Some in H2 as [[<- Hl2] | [Hne2 H2]].
      * reflexivity.
      * apply Hdentro in H2. lia.
      * subst l. apply Hdentro in H1. lia.
      * exact (Hiny n1 n2 l H1 H2).
    + intros l Hl.
      destruct (decide (l = length (limitadores st))) as [-> | Hne].
      * exists o. apply lookup_insert_eq.
      * destruct (Hsobre l ltac:(lia)) as [nombre Hn].
        exists nombre. rewrite lookup_insert_ne; [exact Hn |].
        intros <-. rewrite Hloc in Hn. discriminate Hn.
Qed.

Lemma uno_a_uno_enviar st q n m o rd l :
  limitadores_uno_a_uno st ->
  limitadores_uno_a_uno (fst (enviar_sms_ahora env st q n m o rd l)).
Proof.
  intros Hinv.
  pose proof (enviar_marco env st q n m o rd l) as H. cbv zeta in H.
  destruct H as (_ & _ & Hlim & _).
  destruct (llega_al_limitador st n m o rd l) as [op |].
  - destruct Hlim as (Hr & Hl & _).
    eapply uno_a_uno_mismo; [exact Hr | exact Hl |].
    now apply uno_a_uno_adquirir.
  - destruct Hlim as (Hr & Hl & _).
    eapply uno_a_uno_mismo; [exact Hr | exact Hl | exact Hinv].
Qed.

Lemma uno_a_uno_procesar_items pendientes :
  forall st,
    limitadores_uno_a_uno st ->
    limitadores_uno_a_uno (fst (procesar_items env st pendientes)).
Proof.
  induction pendientes as [| item resto IH]; intros st Hinv; [exact Hinv |].
  cbn [procesar_items].
  destruct (obtener_operador_siguiente _ _ _) as [op | e]; [| exact Hinv].
  pose proof (uno_a_uno_enviar st (it_id item) (it_numero item) (it_mensaje item)
                (operador op) None None Hinv) as Hst'.
  destruct (enviar_sms_ahora _ _ _ _ _ _ _ _) as [st' r].
  now apply IH.
Qed.

Lemma uno_a_uno_reintentar pendientes :
  forall st,
    limitadores_uno_a_uno st ->
    limitadores_uno_a_uno (fst (reintentar_fallidos env st pendientes)).
Proof.
  induction pendientes as [| item resto IH]; intros st Hinv; [exact Hinv |].
  cbn [reintentar_fallidos].
  destruct (String.eqb _ _); [| now apply IH].
  destruct (obtener_operador_siguiente _ _ _) as [op | e]; [| exact Hinv].
  pose proof (uno_a_uno_enviar st (it_id item) (it_numero item) (it_mensaje item)
                (operador op) None None Hinv) as Hst'.
  destruct (enviar_sms_ahora _ _ _ _ _ _ _ _) as [st' r].
  now apply IH.
Qed.

Lemma uno_a_uno_ejecutar st o :
  limitadores_uno_a_uno st -> limitadores_uno_a_uno (ejecutar env st o).
Proof.
  intros Hinv.
  destruct o as [q n m o rd l | pendientes | pendientes | nombre h | config];
    cbn [ejecutar].
  - now apply uno_a_uno_enviar.
  - destruct pendientes as [| item resto]; [exact Hinv |].
    now apply uno_a_uno_procesar_items.
  - now apply uno_a_uno_reintentar.
  - exact Hinv.
  - exact Hinv.
Qed.

Lemma uno_a_uno_ejecutar_todas os :
  forall st,
    limitadores_uno_a_uno st -> limitadores_uno_a_uno (ejecutar_todas env st os).
Proof.
  induction os as [| o os IH]; intros st Hinv; [exact Hinv |].
  cbn [ejecutar_todas fold_left]. apply IH. now apply uno_a_uno_ejecutar.
Qed.

Lemma conserva_refl st : conserva_limitadores st st.
Proof. split; [tauto | intros loc x Hx; exists x; tauto]. Qed.

Lemma conserva_trans st1 st2 st3 :
  conserva_limitadores st1 st2 -> conserva_limitadores st2 st3 ->
  conserva_limitadores st1 st3.
Proof.
  intros (Hr12 & Hl12) (Hr23 & Hl23). split.
  - intros nombre loc H. now apply Hr23, Hr12.
  - intros loc x Hx. destruct (Hl12 loc x Hx) as (x2 & Hx2 & Hm2).
    destruct (Hl23 loc x2 Hx2) as (x3 & Hx3 & Hm3).
    exists x3. split; [exact Hx3 | congruence].
Qed.

Lemma conserva_mismo st st' :
  rate_limiters st' = rate_limiters st -> limitadores st' = limitadores st ->
  conserva_limitadores st st'.
Proof.
  intros Hr Hl. unfold conserva_limitadores. rewrite Hr, Hl.
  apply conserva_refl.
Qed.

Lemma conserva_adquirir st o max :
  conserva_limitadores st (adquirir_limitador st o max).
Proof.
  unfold conserva_limitadores.
  rewrite adquirir_rate_limiters, adquirir_limitadores.
  destruct (rate_limiters st !! o) as [loc |] eqn:Hloc; split.
  - tauto.
  - intros loc' x Hx. destruct (decide (loc = loc')) as [<- | Hne].
    + exists (esperar x). rewrite list_lookup_alter_eq, Hx. split; reflexivity.
    + exists x. rewrite list_lookup_alter_ne by exact Hne. tauto.
  - intros nombre loc' Hn. rewrite lookup_insert_ne; [exact Hn |].
    intros <-. rewrite Hloc in Hn. discriminate Hn.
  - intros loc' x Hx. exists x. split; [now apply lookup_app_l_Some | reflexivity].
Qed.

Lemma conserva_enviar st q n m o rd l :
  conserva_limitadores st (fst (enviar_sms_ahora env st q n m o rd l)).
Proof.
  pose proof (enviar_marco env st q n m o rd l) as H. cbv zeta in H.
  destruct H as (_ & _ & Hlim & _).
  destruct (llega_al_limitador st n m o rd l) as [op |];
    destruct Hlim as (Hr & Hl & _).
  - eapply conserva_trans; [apply (conserva_adquirir st o (max_por_minuto op)) |].
    now apply conserva_mismo.
  - now apply conserva_mismo.
Qed.

Lemma conserva_procesar_items pendientes :
  forall st, conserva_limitadores st (fst (procesar_items env st pendientes)).
Proof.
  induction pendientes as [| item resto IH]; intros st; [apply conserva_refl |].
  cbn [procesar_items].
  destruct (obtener_operador_siguiente _ _ _) as [op | e]; [| apply conserva_refl].
  pose proof (conserva_enviar st (it_id item) (it_numero item) (it_mensaje item)
                (operador op) None None) as Hst'.
  destruct (enviar_sms_ahora _ _ _ _ _ _ _ _) as [st' r].
  eapply conserva_trans; [exact Hst' | apply IH].
Qed.

Lemma conserva_reintentar pendientes :
  forall st, conserva_limitadores st (fst (reintentar_fallidos env st pendientes)).
Proof.
  induction pendientes as [| item resto IH]; intros st; [apply conserva_refl |].
  cbn [reintentar_fallidos].
  destruct (String.eqb _ _); [| apply IH].
  destruct (obtener_operador_siguiente _ _ _) as [op | e]; [| apply conserva_refl].
  pose proof (conserva_enviar st (it_id item) (it_numero item) (it_mensaje item)
                (operador op) None None) as Hst'.
  destruct (enviar_sms_ahora _ _ _ _ _ _ _ _) as [st' r].
  eapply conserva_trans; [exact Hst' | apply IH].
Qed.

Lemma conserva_ejecutar st o : conserva_limitadores st (ejecutar env st o).
Proof.
  destruct o as [q n m o rd l | pendientes | pendientes | nombre h | config];
    cbn [ejecutar].
  - apply conserva_enviar.
  - destruct pendientes as [| item resto]; [apply conserva_refl |].
    apply conserva_procesar_items.
  - apply conserva_reintentar.
  - now apply conserva_mismo.
  - now apply conserva_mismo.
Qed.

Lemma conserva_ejecutar_todas os :
  forall st, conserva_limitadores st (ejecutar_todas env st os).
Proof.
  induction os as [| o os IH]; intros st; [apply conserva_refl |].
  cbn [ejecutar_todas fold_left].
  eapply conserva_trans; [apply conserva_ejecutar | apply IH].
Qed.

End Limitadores.

(** The first delivery through a carrier creates its limiter with the
    carrier's cap; the second reuses the object and creates nothing. *)
Example limitador_compartido :
  let st1 := fst (enviar_sms_ahora env_ok inicial 1 "3011234567" "Hola" "principal"
                    None None) in
  let st2 := fst (enviar_sms_ahora env_ok st1 2 "3021234567" "Hola" "principal"
                    None None) in
  rate_limiters st1 !! "principal" = Some 0%nat
  /\ limitadores st1 = [mkRateLimiter 100 1]
  /\ rate_limiters st2 !! "principal" = Some 0%nat
  /\ limitadores st2 = [mkRateLimiter 100 2].
Proof. vm_compute. repeat split. Qed.

(** C9: in every state reached from the initial one, carrier names and
    limiter objects correspond one to one, so no carrier ever had a second
    limiter created for it, and whatever runs afterwards every name keeps
    the object it holds and every object its cap.  From such a state, an
    invocation of [enviar_sms_ahora] that reaches the rate-limiting step
    creates a limiter only when the carrier's name is unbound, with that
    carrier's [max_por_minuto], and otherwise waits on the instance already
    bound; an invocation that does not reach that step leaves the limiters
    alone. *)
Theorem C9_limitador_unico_y_compartido :
  forall (env : Entorno) (os : list Operacion),
    limitadores_uno_a_uno (ejecutar_todas env inicial os)
    /\ (forall (env' : Entorno) (os' : list Operacion),
          conserva_limitadores (ejecutar_todas env inicial os)
            (ejecutar_todas env' (ejecutar_todas env inicial os) os'))
    /\ forall (env' : Entorno) (queue_id : Z)
              (numero mensaje operador_nombre : string)
              (row_data : option (Dict PyValor)) (link_dinamico : option string),
         let st := ejecutar_todas env inicial os in
         let st' := fst (enviar_sms_ahora env' st queue_id numero mensaje
                           operador_nombre row_data link_dinamico) in
         match llega_al_limitador st numero mensaje operador_nombre
                 row_data link_dinamico with
         | Some op =>
             match rate_limiters st !! operador_nombre with
             | Some loc =>
                 rate_limiters st' = rate_limiters st
                 /\ limitadores st' = alter esperar loc (limitadores st)
             | None =>
                 rate_limiters st'
                 = <[operador_nombre := length (limitadores st)]> (rate_limiters st)
                 /\ limitadores st'
                    = (limitadores st
                         ++ [esperar (RateLimiter_nuevo (max_por_minuto op))])%list
             end
         | None =>
             rate_limiters st' = rate_limiters st
             /\ limitadores st' = limitadores st
         end.
Proof.
  intros env os.
  split; [exact (uno_a_uno_ejecutar_todas env os inicial uno_a_uno_inicial) |].
  split; [intros env' os'; apply conserva_ejecutar_todas |].
  intros env' queue_id numero mensaje operador_nombre row_data link_dinamico.
  cbv zeta. set (st := ejecutar_todas env inicial os).
  pose proof (enviar_marco env' st queue_id numero mensaje operador_nombre
                row_data link_dinamico) as H.
  cbv zeta in H. destruct H as (_ & _ & Hlim & _).
  destruct (llega_al_limitador st numero mensaje operador_nombre row_data
              link_dinamico) as [op |]; destruct Hlim as (Hr & Hl & _).
  - rewrite adquirir_rate_limiters in Hr. rewrite adquirir_limitadores in Hl.
    destruct (rate_limiters st !! operador_nombre) as [loc |]; split; assumption.
  - split; assumption.
Qed.

(** ** The queue passes *)

Lemma procesar_cola_items env st pendientes :
  procesar_cola env st pendientes = procesar_items env st pendientes.
Proof. destruct pendientes; reflexivity. Qed.

Lemma reintentar_es_procesar_items env pendientes :
  forall st,
    reintentar_fallidos env st pendientes
    = procesar_items env st (List.filter es_reintentando pendientes).
Proof.
  induction pendientes as [| item resto IH]; intros st; [reflexivity |].
  cbn [reintentar_fallidos List.filter]. unfold es_reintentando at 1.
  destruct (String.eqb (it_estado item) "reintentando"); [| apply IH].
  cbn [procesar_items].
  rewrite (siguiente_sin_pista (operadores st) (it_intentos item) None
             (it_operador item)).
  destruct (obtener_operador_siguiente (operadores st) (it_intentos item)
              (it_operador item)) as [op | e]; [| reflexivity].
  destruct (enviar_sms_ahora env st (it_id item) (it_numero item) (it_mensaje item)
              (operador op) None None) as [st' r].
  apply IH.
Qed.

Section Pasadas.

Variable env : Entorno.

Lemma seleccion_segura_bien ops intento fallido :
  seleccion_segura ops ->
  exists op, obtener_operador_siguiente ops intento fallido = Bien op.
Proof.
  intros Hseg.
  destruct (operadores_habilitados ops) as [| a hab] eqn:Hhab.
  - destruct Hseg as [Hne | [op Hop]]; [congruence |].
    exists op. unfold obtener_operador_siguiente. cbv zeta.
    unfold obtener_operador in Hop. now rewrite Hhab, Hop.
  - destruct (siguiente_con_habilitados ops intento fallido) as (op & Hop & _).
    + rewrite Hhab. discriminate.
    + now exists op.
Qed.

(** A carrier returned shows that the selector cannot raise. *)
Lemma bien_seleccion_segura ops intento fallido op :
  obtener_operador_siguiente ops intento fallido = Bien op -> seleccion_segura ops.
Proof.
  unfold obtener_operador_siguiente, seleccion_segura, obtener_operador. cbv zeta.
  destruct (operadores_habilitados ops) as [| a hab];
    [| intros _; left; discriminate].
  destruct (dict_get ops "principal") as [p |];
    [intros _; right; now eexists | discriminate].
Qed.

Lemma responde_sii_segura ops :
  selector_responde ops = true <-> seleccion_segura ops.
Proof.
  unfold selector_responde. split.
  - destruct (obtener_operador_siguiente ops 0 None) as [op | e] eqn:H;
      [intros _; exact (bien_seleccion_segura ops 0 None op H) | discriminate].
  - intros Hs. destruct (seleccion_segura_bien ops 0 None Hs) as (op & ->).
    reflexivity.
Qed.

(** Whether the selector raises does not depend on the row. *)
Lemma atendidas_bien ops intento fallido op pendientes :
  obtener_operador_siguiente ops intento fallido = Bien op ->
  filas_atendidas ops pendientes = pendientes.
Proof.
  intros H. unfold filas_atendidas.
  now rewrite (proj2 (responde_sii_segura ops)
                 (bien_seleccion_segura ops intento fallido op H)).
Qed.

Lemma atendidas_lanza ops intento fallido e pendientes :
  obtener_operador_siguiente ops intento fallido = Lanza e ->
  filas_atendidas ops pendientes = [].
Proof.
  intros H. unfold filas_atendidas.
  destruct (selector_responde ops) eqn:Hr; [| reflexivity].
  apply responde_sii_segura in Hr.
  destruct (seleccion_segura_bien ops intento fallido Hr) as (op & Hop).
  congruence.
Qed.

Lemma transmite_operadores st st' ll :
  operadores st' = operadores st -> transmite st' ll = transmite st ll.
Proof. intros H. unfold transmite, llega_al_limitador. now rewrite H. Qed.

Lemma atiende_sin_pista ops p1 p2 ll item :
  atiende ops p1 ll item -> atiende ops p2 ll item.
Proof.
  intros (op & Hsel & Hll). exists op. split; [| exact Hll].
  now rewrite (siguiente_sin_pista ops (it_intentos item) (p2 item) (p1 item)).
Qed.

(** What a pass over the rows does, row by row: one invocation for each row
    it gets to, without row data and without link, and one request for each
    of these invocations that gets past validation, carrying the row's
    number and its stored template. *)
Lemma procesar_items_exacto pendientes :
  forall st,
    exists nuevas nuevos,
      llamadas (fst (procesar_items env st pendientes))
      = (llamadas st ++ nuevas)%list
      /\ posts (fst (procesar_items env st pendientes)) = (posts st ++ nuevos)%list
      /\ Forall2 (atiende (operadores st) it_operador) nuevas
           (filas_atendidas (operadores st) pendientes)
      /\ map destino_y_cuerpo nuevos
         = map (fun ll => (numero_formateado (ll_numero ll), ll_mensaje ll))
             (List.filter (transmite st) nuevas).
Proof.
  induction pendientes as [| item resto IH]; intros st.
  - exists [], []. cbn [procesar_items fst]. rewrite !app_nil_r.
    split; [reflexivity | split; [reflexivity |]].
    split; [| reflexivity].
    unfold filas_atendidas. destruct (selector_responde _); constructor.
  - cbn [procesar_items].
    destruct (obtener_operador_siguiente (operadores st) (it_intentos item)
                (it_operador item)) as [op | e] eqn:Hsel.
    + rewrite (atendidas_bien _ _ _ _ (item :: resto) Hsel).
      pose proof (enviar_marco env st (it_id item) (it_numero item)
                    (it_mensaje item) (operador op) None None) as Hm.
      cbv zeta in Hm. destruct Hm as (Hops & Hll & _ & _).
      pose proof (enviar_peticion env st (it_id item) (it_numero item)
                    (it_mensaje item) (operador op) None None) as Hposts.
      destruct (enviar_sms_ahora env st (it_id item) (it_numero item)
                  (it_mensaje item) (operador op) None None) as [st1 r].
      cbn [fst] in Hops, Hll, Hposts.
      destruct (IH st1) as (nuevas & nuevos & Hll' & Hposts' & Hfilas & Hcuerpos).
      rewrite Hops, (atendidas_bien _ _ _ _ resto Hsel) in Hfilas.
      rewrite (List.filter_ext _ _ (fun ll => transmite_operadores st st1 ll Hops))
        in Hcuerpos.
      exists (llamada_de_fila item op :: nuevas).
      destruct (llega_al_limitador st (it_numero item) (it_mensaje item)
                  (operador op) None None) as [op' |] eqn:Hllega.
      * eexists (_ :: nuevos).
        rewrite Hll', Hll, Hposts', Hposts, <- !app_assoc.
        split; [reflexivity | split; [reflexivity |]].
        split; [constructor; [exists op; now split | exact Hfilas] |].
        cbn [List.filter]. unfold transmite at 1.
        cbn [llamada_de_fila ll_numero ll_mensaje ll_operador_nombre ll_row_data
             ll_link_dinamico].
        rewrite Hllega. cbn [map]. now rewrite Hcuerpos.
      * exists nuevos.
        rewrite Hll', Hll, Hposts', Hposts, <- !app_assoc.
        split; [reflexivity | split; [reflexivity |]].
        split; [constructor; [exists op; now split | exact Hfilas] |].
        cbn [List.filter]. unfold transmite at 1.
        cbn [llamada_de_fila ll_numero ll_mensaje ll_operador_nombre ll_row_data
             ll_link_dinamico].
        rewrite Hllega. exact Hcuerpos.
    + rewrite (atendidas_lanza _ _ _ _ (item :: resto) Hsel).
      exists [], []. cbn [fst]. rewrite !app_nil_r.
      repeat split; constructor.
Qed.

End Pasadas.

(** A retry pass over a row looked at in the very second of its last
    attempt. *)
Example reintento_inmediato :
  map ll_queue_id (llamadas (fst (reintentar_fallidos env_ok inicial [item_reciente])))
  = [7].
Proof. vm_compute. reflexivity. Qed.


(** A queue pass sends the stored template untouched. *)
Example cola_plantilla_cruda :
  map p_content (posts (fst (procesar_cola env_ok inicial [item_reciente])))
  = ["Hola {nombre}, ver {link}"].
Proof. vm_compute. reflexivity. Qed.

(** Three rows, the last with an empty template: three invocations, two
    requests, each with the template of its own row. *)
Example cola_tres_filas :
  let st := fst (procesar_cola env_ok inicial [item_reciente; item_nuevo; item_vacio]) in
  map ll_queue_id (llamadas st) = [7; 8; 9]
  /\ map destino_y_cuerpo (posts st)
     = [("573011234567", "Hola {nombre}, ver {link}");
        ("573109876543", "Su codigo es {codigo}")].
Proof. vm_compute. split; reflexivity. Qed.

(** C10: [procesar_cola] makes one invocation of [enviar_sms_ahora] for each
    row, in the rows' order, and [reintentar_fallidos] one for each row in
    state [reintentando]; every such invocation passes the row's id, number
    and stored template, the name of the carrier selected, and neither row
    data nor link.  The requests issued are those of the invocations that
    get past validation, in order, and each has as destination the row's
    number in the form sent and as body the row's stored template,
    unchanged: without row data and link the rendering is the identity, so
    every placeholder, [{link}] included, goes out verbatim.  (When the
    selector raises, which it then does at the first row, no invocation is
    made.) *)
Theorem C10_cola_sin_sustitucion :
  forall (env : Entorno) (st : Estado) (pendientes : list QueueItem),
    (exists nuevas nuevos,
        llamadas (fst (procesar_cola env st pendientes))
        = (llamadas st ++ nuevas)%list
        /\ posts (fst (procesar_cola env st pendientes)) = (posts st ++ nuevos)%list
        /\ Forall2 (atiende (operadores st) it_operador) nuevas
             (filas_atendidas (operadores st) pendientes)
        /\ map destino_y_cuerpo nuevos
           = map (fun ll => (numero_formateado (ll_numero ll), ll_mensaje ll))
               (List.filter (transmite st) nuevas))
    /\ (exists nuevas nuevos,
          llamadas (fst (reintentar_fallidos env st pendientes))
          = (llamadas st ++ nuevas)%list
          /\ posts (fst (reintentar_fallidos env st pendientes))
             = (posts st ++ nuevos)%list
          /\ Forall2 (atiende (operadores st) (fun _ => None)) nuevas
               (filas_atendidas (operadores st)
                  (List.filter es_reintentando pendientes))
          /\ map destino_y_cuerpo nuevos
             = map (fun ll => (numero_formateado (ll_numero ll), ll_mensaje ll))
                 (List.filter (transmite st) nuevas))
    /\ (forall mensaje numero : string,
          preparar_mensaje mensaje numero None None = mensaje).
Proof.
  intros env st pendientes.
  split; [| split; [| intros mensaje numero; apply preparar_sin_datos]].
  - rewrite procesar_cola_items.
    destruct (procesar_items_exacto env pendientes st)
      as (nuevas & nuevos & Hll & Hposts & Hfilas & Hcuerpos).
    exists nuevas, nuevos. repeat split; assumption.
  - rewrite reintentar_es_procesar_items.
    destruct (procesar_items_exacto env (List.filter es_reintentando pendientes) st)
      as (nuevas & nuevos & Hll & Hposts & Hfilas & Hcuerpos).
    exists nuevas, nuevos.
    split; [exact Hll | split; [exact Hposts | split; [| exact Hcuerpos]]].
    eapply List.Forall2_impl; [| exact Hfilas].
    intros ll item. apply atiende_sin_pista.
Qed.

(** ** The selector: what it returns and when it raises *)

Section SelectorErrores.

Lemma habilitados_en_valores ops op :
  In op (operadores_habilitados ops) ->
  In op (dict_values ops) /\ habilitado op = true.
Proof. unfold operadores_habilitados. intros H. now apply filter_In in H. Qed.

(** A carrier returned with some carrier enabled is itself enabled and
    registered. *)
Lemma siguiente_es_habilitado ops intento fallido op :
  operadores_habilitados ops <> [] ->
  obtener_operador_siguiente ops intento fallido = Bien op ->
  In op (dict_values ops) /\ habilitado op = true.
Proof.
  intros Hne Hsel.
  destruct (siguiente_con_habilitados ops intento fallido Hne) as (op' & Hop' & Hnth).
  rewrite Hsel in Hop'. injection Hop' as <-.
  apply nth_error_In in Hnth.
  apply habilitados_en_valores.
  eapply Permutation_in; [apply ordenar_permutacion | exact Hnth].
Qed.

(** The fallback taken when nothing is enabled. *)
Lemma siguiente_sin_habilitados ops intento fallido :
  operadores_habilitados ops = [] ->
  obtener_operador_siguiente ops intento fallido
  = match obtener_operador ops "principal" with
    | Some op => Bien op
    | None => Lanza (KeyError "principal")
    end.
Proof.
  intros Hvacio. unfold obtener_operador_siguiente, obtener_operador. cbv zeta.
  now rewrite Hvacio.
Qed.

Lemma siguiente_en_registro ops intento fallido op :
  obtener_operador_siguiente ops intento fallido = Bien op ->
  In op (dict_values ops).
Proof.
  intros Hsel.
  destruct (operadores_habilitados ops) as [| a hab] eqn:Hhab.
  - rewrite (siguiente_sin_habilitados ops intento fallido Hhab) in Hsel.
    unfold obtener_operador in Hsel.
    destruct (dict_get ops "principal") as [op' |] eqn:Hget; [| discriminate Hsel].
    injection Hsel as <-. now apply dict_get_en_valores in Hget.
  - apply (siguiente_es_habilitado ops intento fallido op); [| exact Hsel].
    rewrite Hhab. discriminate.
Qed.

End SelectorErrores.

(** X5: for every integer attempt number, negative ones included,
    [obtener_operador_siguiente] either returns a configuration of the
    registry, which is an enabled one whenever any carrier is enabled, or
    raises [KeyError('principal')], and it raises exactly when nothing is
    enabled and no entry is named [principal]; it never raises
    [IndexError]. *)
Theorem X5_selector_resultado_o_keyerror :
  forall (ops : Dict OperadorConfig) (intento : Z) (fallido : option string),
    match obtener_operador_siguiente ops intento fallido with
    | Bien op =>
        In op (dict_values ops)
        /\ (operadores_habilitados ops <> [] -> habilitado op = true)
        /\ (operadores_habilitados ops = [] ->
            obtener_operador ops "principal" = Some op)
    | Lanza e =>
        e = KeyError "principal"
        /\ operadores_habilitados ops = []
        /\ obtener_operador ops "principal" = None
    end.
Proof.
  intros ops intento fallido.
  destruct (operadores_habilitados ops) as [| a hab] eqn:Hhab.
  - rewrite (siguiente_sin_habilitados ops intento fallido Hhab).
    destruct (obtener_operador ops "principal") as [op |] eqn:Hget.
    + split; [now apply dict_get_en_valores in Hget |].
      split; [congruence | reflexivity].
    + repeat split.
  - assert (Hne : operadores_habilitados ops <> []) by (rewrite Hhab; discriminate).
    destruct (siguiente_con_habilitados ops intento fallido Hne) as (op & Hop & _).
    rewrite Hop.
    destruct (siguiente_es_habilitado ops intento fallido op Hne Hop) as (Hin & Hen).
    split; [exact Hin |]. split; [intros _; exact Hen | discriminate].
Qed.

(** X6: when exactly one carrier is enabled, every attempt number and hint
    selects that carrier: a retry goes back to the carrier that just
    failed. *)
Theorem X6_un_solo_habilitado :
  forall (ops : Dict OperadorConfig) (op : OperadorConfig) (intento : Z)
         (fallido : option string),
    operadores_habilitados ops = [op] ->
    obtener_operador_siguiente ops intento fallido = Bien op.
Proof.
  intros ops op intento fallido Huno.
  unfold obtener_operador_siguiente. cbv zeta. rewrite Huno.
  cbn [ordenar_por_prioridad insertar_por_prioridad length].
  change (Z.of_nat 1) with 1. now rewrite Z.mod_1_r.
Qed.

Lemma X6_un_solo_habilitado_testigo :
  operadores_habilitados OPERADORES_PREDEFINIDOS = [op_principal]
  /\ obtener_operador_siguiente OPERADORES_PREDEFINIDOS 3 (Some "principal")
     = Bien op_principal.
Proof.
  split; [reflexivity |].
  exact (X6_un_solo_habilitado OPERADORES_PREDEFINIDOS op_principal 3
           (Some "principal") eq_refl).
Defined.

(** ** A retry pass is a queue pass over the rows to retry *)

(** X7: [reintentar_fallidos] on a list of rows does exactly what
    [procesar_cola] does on the rows of that list whose state is
    [reintentando]: same final state, same exception if any.  The retry
    path selects carriers by the same rule as the first pass. *)
Theorem X7_reintentar_es_procesar_cola :
  forall (env : Entorno) (st : Estado) (pendientes : list QueueItem),
    reintentar_fallidos env st pendientes
    = procesar_cola env st (List.filter es_reintentando pendientes).
Proof.
  intros env st pendientes.
  rewrite procesar_cola_items. apply reintentar_es_procesar_items.
Qed.

(** ** The request and the classification of its outcome *)

(** A delivery over a network that answers HTTP 500 with a body that is
    not JSON still counts as sent. *)
Example envio_http_500 :
  let env := mkEntorno (fun _ _ => Responde (mkHttpResponse 500 "error" false) 40)
               (fun _ => "20240101120000") (fun _ => None) in
  let '(st, r) :=
    enviar_sms_ahora env inicial 1 "3011234567" "Hola" "principal" None None in
  success r = true
  /\ r_respuesta r = Some (RTexto "error" 500)
  /\ map i_estado (intentos_bd st) = ["enviado"].
Proof. vm_compute. repeat split. Qed.

(** X8: an invocation of [enviar_sms_ahora] that gets past validation
    issues exactly one request, built from the carrier's configuration: its
    URL, account, sender id and timeout, the rendered message as content,
    the clock reading as [datetime], as [sign] the MD5 signature of account,
    secret and that same [datetime], and as destination the number with
    [57] put in front unless it already begins with [57], so that the
    destination sent always begins with [57].  Any other invocation issues
    no request. *)
Theorem X8_peticion_del_envio :
  forall (env : Entorno) (st : Estado) (queue_id : Z)
         (numero mensaje operador_nombre : string)
         (row_data : option (Dict PyValor)) (link_dinamico : option string),
    match llega_al_limitador st numero mensaje operador_nombre row_data
            link_dinamico with
    | Some op =>
        exists pet,
          posts (fst (enviar_sms_ahora env st queue_id numero mensaje
                        operador_nombre row_data link_dinamico))
          = (posts st ++ [pet])%list
          /\ p_url pet = url_api op /\ p_account pet = cuenta op
          /\ p_senderid pet = sender_id op /\ p_timeout pet = timeout_segundos op
          /\ p_content pet = preparar_mensaje mensaje numero row_data link_dinamico
          /\ p_datetime pet = reloj env (length (posts st))
          /\ p_sign pet
             = MD5.hexdigest (p_account pet ++ contraseña op ++ p_datetime pet)
          /\ p_numbers pet = numero_formateado numero
          /\ PyStr.startswith "57" (p_numbers pet) = true
          /\ numero_formateado (p_numbers pet) = p_numbers pet
    | None =>
        posts (fst (enviar_sms_ahora env st queue_id numero mensaje
                      operador_nombre row_data link_dinamico))
        = posts st
    end.
Proof.
  intros env st queue_id numero mensaje operador_nombre row_data link_dinamico.
  pose proof (enviar_marco env st queue_id numero mensaje operador_nombre
                row_data link_dinamico) as Hmarco.
  cbv zeta in Hmarco. destruct Hmarco as (_ & _ & Hlim & _).
  unfold llega_al_limitador in *.
  destruct (obtener_operador (operadores st) operador_nombre) as [op |] eqn:Hop;
    [| now destruct Hlim as (_ & _ & Hposts)].
  destruct (PyStr.vacio (preparar_mensaje mensaje numero row_data link_dinamico))
    eqn:Hvacio; [now destruct Hlim as (_ & _ & Hposts) |].
  pose proof (enviar_exacto env st queue_id numero mensaje operador_nombre
                row_data link_dinamico op Hop Hvacio) as Hex.
  cbv zeta in Hex. rewrite Hex.
  eexists.
  split.
  { destruct (red env _ _); [destruct (bd_falla env _) |..]; cbn [fst];
      rewrite posts_anotar_intentos; cbn [anotar_post posts];
      rewrite posts_adquirir_anotar; reflexivity. }
  cbn [p_url p_account p_senderid p_timeout p_content p_datetime p_sign p_numbers].
  repeat split.
  - apply numero_formateado_prefijo.
  - apply numero_formateado_idempotente.
Qed.

(** X9: the outcome of an invocation that issues its request is decided by
    how the transport ends and, when a response arrived, by whether the
    write of the [enviado] record raises.  Any response, whatever its status
    code and whether or not its body parses, leads to a record in state
    [enviado] with the response and the elapsed time; if that write returns
    the result is [success = True], and if it raises a second record, in
    state [error] with the exception's text, follows and the result is a
    failure with that text.  A timeout gives the error [Timeout] and one
    record [Timeout de conexión]; any other exception of the transport
    gives its text as error, in result and record.  The result always names
    the number and carrier of the call. *)
Theorem X9_clasificacion_del_resultado :
  forall (env : Entorno) (st : Estado) (queue_id : Z)
         (numero mensaje operador_nombre : string)
         (row_data : option (Dict PyValor)) (link_dinamico : option string),
    r_numero (snd (enviar_sms_ahora env st queue_id numero mensaje operador_nombre
                     row_data link_dinamico)) = numero
    /\ r_operador (snd (enviar_sms_ahora env st queue_id numero mensaje
                          operador_nombre row_data link_dinamico))
       = operador_nombre
    /\ match llega_al_limitador st numero mensaje operador_nombre row_data
               link_dinamico with
       | None =>
           success (snd (enviar_sms_ahora env st queue_id numero mensaje
                           operador_nombre row_data link_dinamico)) = false
       | Some op =>
           exists pet,
             posts (fst (enviar_sms_ahora env st queue_id numero mensaje
                           operador_nombre row_data link_dinamico))
             = (posts st ++ [pet])%list
             /\ match red env (length (posts st)) pet with
                | Responde response tiempo_ms =>
                    let respuesta :=
                      if es_json response then RJson (text response)
                      else RTexto (text response) (status_code response) in
                    match bd_falla env (length (intentos_bd st)) with
                    | None =>
                        snd (enviar_sms_ahora env st queue_id numero mensaje
                               operador_nombre row_data link_dinamico)
                        = mkResultado true numero operador_nombre (Some respuesta)
                            (Some tiempo_ms) None
                        /\ intentos_bd
                             (fst (enviar_sms_ahora env st queue_id numero mensaje
                                     operador_nombre row_data link_dinamico))
                           = (intentos_bd st
                                ++ [mkIntento queue_id operador_nombre "enviado"
                                      (Some respuesta) None (Some tiempo_ms)])%list
                    | Some e =>
                        snd (enviar_sms_ahora env st queue_id numero mensaje
                               operador_nombre row_data link_dinamico)
                        = fallo numero operador_nombre e
                        /\ intentos_bd
                             (fst (enviar_sms_ahora env st queue_id numero mensaje
                                     operador_nombre row_data link_dinamico))
                           = (intentos_bd st
                                ++ [mkIntento queue_id operador_nombre "enviado"
                                      (Some respuesta) None (Some tiempo_ms);
                                    mkIntento queue_id operador_nombre "error" None
                                      (Some e) None])%list
                    end
                | Timeout =>
                    snd (enviar_sms_ahora env st queue_id numero mensaje
                           operador_nombre row_data link_dinamico)
                    = fallo numero operador_nombre "Timeout"
                    /\ intentos_bd
                         (fst (enviar_sms_ahora env st queue_id numero mensaje
                                 operador_nombre row_data link_dinamico))
                       = (intentos_bd st
                            ++ [mkIntento queue_id operador_nombre "error" None
                                  (Some "Timeout de conexión") None])%list
                | RequestException e | OtraExcepcion e =>
                    snd (enviar_sms_ahora env st queue_id numero mensaje
                           operador_nombre row_data link_dinamico)
                    = fallo numero operador_nombre e
                    /\ intentos_bd
                         (fst (enviar_sms_ahora env st queue_id numero mensaje
                                 operador_nombre row_data link_dinamico))
                       = (intentos_bd st
                            ++ [mkIntento queue_id operador_nombre "error" None
                                  (Some e) None])%list
                end
       end.
Proof.
  intros env st queue_id numero mensaje operador_nombre row_data link_dinamico.
  unfold llega_al_limitador.
  destruct (obtener_operador (operadores st) operador_nombre) as [op |] eqn:Hop.
  - destruct (PyStr.vacio (preparar_mensaje mensaje numero row_data link_dinamico))
      eqn:Hvacio.
    + rewrite (enviar_vacio env st queue_id numero mensaje operador_nombre row_data
                 link_dinamico op Hop Hvacio).
      repeat split.
    + pose proof (enviar_exacto env st queue_id numero mensaje operador_nombre
                    row_data link_dinamico op Hop Hvacio) as Hex.
      cbv zeta in Hex. rewrite Hex. clear Hex.
      set (pet := mkPeticion _ _ _ _ _ _ _ _).
      split;
        [destruct (red env _ pet); [destruct (bd_falla env _) |..]; reflexivity |].
      split;
        [destruct (red env _ pet); [destruct (bd_falla env _) |..]; reflexivity |].
      exists pet.
      destruct (adquirir_resto
                  (anotar_llamada
                     (mkLlamada queue_id numero mensaje operador_nombre row_data
                        link_dinamico) st)
                  operador_nombre (max_por_minuto op)) as (_ & Hbd & Hposts & _).
      cbv zeta.
      destruct (red env (length (posts st)) pet) as [resp ms | | e | e];
        [destruct (bd_falla env (length (intentos_bd st))) as [e |] |..];
        cbn [fst snd anotar_intentos anotar_post posts intentos_bd];
        rewrite Hbd, Hposts; repeat split.
  - rewrite (enviar_desconocido env st queue_id numero mensaje operador_nombre
               row_data link_dinamico Hop).
    repeat split.
Qed.

(** ** Invariants of the runs *)

Section Invariantes.

Variable P : Estado -> Prop.

Hypothesis P_enviar :
  forall env st q n m o rd l, P st -> P (fst (enviar_sms_ahora env st q n m o rd l)).

Hypothesis P_habilitar :
  forall st nombre h,
    P st -> P (con_operadores (fst (habilitar_operador (operadores st) nombre h)) st).

Hypothesis P_agregar :
  forall st config,
    P st -> P (con_operadores (agregar_operador (operadores st) config) st).

Lemma inv_procesar_items env pendientes :
  forall st, P st -> P (fst (procesar_items env st pendientes)).
Proof.
  induction pendientes as [| item resto IH]; intros st HP; [exact HP |].
  cbn [procesar_items].
  destruct (obtener_operador_siguiente _ _ _) as [op | e]; [| exact HP].
  pose proof (P_enviar env st (it_id item) (it_numero item) (it_mensaje item)
                (operador op) None None HP) as HP'.
  destruct (enviar_sms_ahora _ _ _ _ _ _ _ _) as [st' r].
  now apply IH.
Qed.

Lemma inv_ejecutar env st o : P st -> P (ejecutar env st o).
Proof.
  intros HP.
  destruct o as [q n m o rd l | pendientes | pendientes | nombre h | config];
    cbn [ejecutar].
  - now apply P_enviar.
  - rewrite procesar_cola_items. now apply inv_procesar_items.
  - rewrite reintentar_es_procesar_items. now apply inv_procesar_items.
  - now apply P_habilitar.
  - now apply P_agregar.
Qed.

(** A property kept by a delivery and by the two registry updates is kept
    by every run. *)
Lemma inv_ejecutar_todas env os :
  forall st, P st -> P (ejecutar_todas env st os).
Proof.
  induction os as [| o os IH]; intros st HP; [exact HP |].
  cbn [ejecutar_todas fold_left]. apply IH. now apply inv_ejecutar.
Qed.

End Invariantes.

Section Cuentas.

Lemma suma_alter_esperar (l : list RateLimiter) :
  forall loc,
    (loc < length l)%nat ->
    list_sum (map rl_admitidos (alter esperar loc l))
    = S (list_sum (map rl_admitidos l)).
Proof.
  induction l as [| x l IH]; intros loc Hloc; [cbn in Hloc; lia |].
  destruct loc as [| loc].
  - reflexivity.
  - cbn [length] in Hloc.
    change (alter esperar (S loc) (x :: l)) with (x :: alter esperar loc l).
    cbn [map].
    change ((rl_admitidos x
             + list_sum (map rl_admitidos (alter esperar loc l)))%nat
            = S (rl_admitidos x + list_sum (map rl_admitidos l))).
    rewrite IH by lia. lia.
Qed.

(** Acquiring admits once, whether the limiter is new or not. *)
Lemma total_adquirir st o max :
  limitadores_uno_a_uno st ->
  total_admitidos (adquirir_limitador st o max) = S (total_admitidos st).
Proof.
  intros (Hdentro & _ & _). unfold total_admitidos.
  rewrite adquirir_limitadores.
  destruct (rate_limiters st !! o) as [loc |] eqn:Hloc.
  - apply suma_alter_esperar. now apply (Hdentro o).
  - rewrite map_app, list_sum_app. cbn. lia.
Qed.

Lemma cuentas_enviar env st q n m o rd l :
  limitadores_uno_a_uno st /\ cuentas_coherentes st ->
  limitadores_uno_a_uno (fst (enviar_sms_ahora env st q n m o rd l))
  /\ cuentas_coherentes (fst (enviar_sms_ahora env st q n m o rd l)).
Proof.
  intros (Huno & Hposts & Hbd & Hinv & Htotal).
  split; [now apply uno_a_uno_enviar |].
  pose proof (enviar_marco env st q n m o rd l) as H. cbv zeta in H.
  destruct H as (_ & Hll & Hlim & Hreg).
  unfold cuentas_coherentes, total_admitidos in *. rewrite Hll, length_app.
  cbn [length]. unfold llega_al_limitador in Hlim.
  destruct (obtener_operador (operadores st) o) as [op |].
  - destruct (PyStr.vacio (preparar_mensaje m n rd l)).
    + destruct Hlim as (_ & -> & ->).
      destruct Hreg as (i & _ & _ & [-> | (e & _ & _ & Hno & _)]);
        [| discriminate Hno].
      rewrite length_app. cbn [length]. lia.
    + destruct Hlim as (_ & -> & pet & -> & _). rewrite length_app. cbn [length].
      pose proof (total_adquirir st o (max_por_minuto op) Huno) as Hadq.
      unfold total_admitidos in Hadq. rewrite Hadq.
      destruct Hreg as (i & _ & _ & [-> | (e & _ & _ & _ & ->)]);
        rewrite length_app; cbn [length]; lia.
  - rewrite Hreg. destruct Hlim as (_ & -> & ->). lia.
Qed.

End Cuentas.

(** X10: in every state reached from the initial one by deliveries, queue
    passes and registry updates, the attempt records are at least as many
    as the requests issued and at most the invocations of
    [enviar_sms_ahora] plus the requests issued (an invocation writes one
    record, and a second one only after a request whose [enviado] write
    raised); the requests are at most the invocations; and the admissions
    granted by all rate limiters together equal the number of requests
    issued: nothing is sent without passing once through a limiter. *)
Theorem X10_cuentas_de_toda_ejecucion :
  forall (env : Entorno) (os : list Operacion),
    cuentas_coherentes (ejecutar_todas env inicial os).
Proof.
  intros env os.
  apply (inv_ejecutar_todas
           (fun st => limitadores_uno_a_uno st /\ cuentas_coherentes st)).
  - intros env' st q n m o rd l. apply cuentas_enviar.
  - intros st nombre h H. exact H.
  - intros st config H. exact H.
  - split; [apply uno_a_uno_inicial |]. repeat split; cbn; lia.
Qed.

(** ** Registries the router can reach, and the passes over them *)

Section RegistroValido.

Lemma coherentes_get ops k v :
  claves_coherentes ops -> dict_get ops k = Some v -> operador v = k.
Proof.
  unfold claves_coherentes.
  induction 1 as [| [k' v'] ops Hkv _ IH]; cbn [dict_get]; [discriminate |].
  destruct (String.eqb k k') eqn:Hk; [| exact IH].
  apply String.eqb_eq in Hk. intros [= ->]. cbn in Hkv. congruence.
Qed.

Lemma coherentes_set ops k v :
  claves_coherentes ops -> operador v = k -> claves_coherentes (dict_set ops k v).
Proof.
  unfold claves_coherentes. intros Hops Hv.
  induction Hops as [| [k' v'] ops Hkv Hresto IH]; cbn [dict_set].
  - now repeat constructor.
  - destruct (String.eqb k k'); constructor; assumption.
Qed.

(** A registered configuration can be found again under its own name. *)
Lemma coherentes_en_valores ops op :
  claves_coherentes ops -> In op (dict_values ops) ->
  is_Some (dict_get ops (operador op)).
Proof.
  unfold claves_coherentes, dict_values.
  induction 1 as [| [k' v'] ops Hkv _ IH]; cbn [map In dict_get snd]; [tauto |].
  intros [-> | Hin].
  - cbn in Hkv. rewrite Hkv, String.eqb_refl. now eexists.
  - destruct (String.eqb (operador op) k'); [now eexists | now apply IH].
Qed.

Lemma is_Some_set {V : Type} (d : Dict V) k v k' :
  is_Some (dict_get d k') -> is_Some (dict_get (dict_set d k v) k').
Proof.
  intros Hk'. destruct (String.eqb k k') eqn:Hk.
  - apply String.eqb_eq in Hk. subst k'. rewrite dict_get_set_eq. now eexists.
  - apply String.eqb_neq in Hk. now rewrite dict_get_set_ne.
Qed.

Lemma valido_predefinido : registro_valido OPERADORES_PREDEFINIDOS.
Proof. split; [repeat constructor | now eexists]. Qed.

Lemma valido_habilitar ops nombre h :
  registro_valido ops -> registro_valido (fst (habilitar_operador ops nombre h)).
Proof.
  intros (Hcoh & Hpri). unfold habilitar_operador.
  destruct (dict_get ops nombre) as [op |] eqn:Hget; cbn [fst]; [| now split].
  split.
  - apply coherentes_set; [exact Hcoh |].
    cbn [con_habilitado operador]. now apply (coherentes_get ops).
  - unfold obtener_operador. now apply is_Some_set.
Qed.

Lemma valido_agregar ops config :
  registro_valido ops -> registro_valido (agregar_operador ops config).
Proof.
  intros (Hcoh & Hpri). unfold agregar_operador. split.
  - now apply coherentes_set.
  - unfold obtener_operador. now apply is_Some_set.
Qed.

Lemma valido_ejecutar_todas env os :
  registro_valido (operadores (ejecutar_todas env inicial os)).
Proof.
  apply (inv_ejecutar_todas (fun st => registro_valido (operadores st))).
  - intros env' st q n m o rd l H.
    pose proof (enviar_marco env' st q n m o rd l) as Hm. cbv zeta in Hm.
    destruct Hm as (Hops & _). now rewrite Hops.
  - intros st nombre h H. now apply valido_habilitar.
  - intros st config H. now apply valido_agregar.
  - exact valido_predefinido.
Qed.

Variable env : Entorno.

(** On a valid registry the selector raises nothing during a pass, and the
    pass writes the records of every row, in order. *)
Lemma procesar_items_registros pendientes :
  forall st,
    registro_valido (operadores st) ->
    snd (procesar_items env st pendientes) = None
    /\ exists grupos,
         intentos_bd (fst (procesar_items env st pendientes))
         = (intentos_bd st ++ concat grupos)%list
         /\ Forall2 (registros_de_fila (operadores st)) pendientes grupos
         /\ ((forall k, bd_falla env k = None) ->
             Forall (fun g => length g = 1%nat) grupos).
Proof.
  induction pendientes as [| item resto IH]; intros st Hval.
  - split; [reflexivity |]. exists []. cbn [concat]. rewrite app_nil_r.
    repeat split; constructor.
  - cbn [procesar_items].
    destruct Hval as (Hcoh & Hpri).
    destruct (seleccion_segura_bien (operadores st) (it_intentos item)
                (it_operador item) (or_intror Hpri)) as (op & Hsel).
    rewrite Hsel.
    pose proof (siguiente_en_registro _ _ _ _ Hsel) as Hin.
    pose proof (coherentes_en_valores _ _ Hcoh Hin) as Hconocido.
    pose proof (enviar_marco env st (it_id item) (it_numero item) (it_mensaje item)
                  (operador op) None None) as Hm.
    cbv zeta in Hm. destruct Hm as (Hops & _ & _ & Hreg).
    unfold obtener_operador in Hreg.
    destruct Hconocido as (op' & Hget). rewrite Hget in Hreg.
    destruct Hreg as (i & Hq & Ho & Hbd).
    destruct (enviar_sms_ahora env st (it_id item) (it_numero item)
                (it_mensaje item) (operador op) None None) as [st1 r].
    cbn [fst] in Hops, Hbd.
    destruct (IH st1) as (Hnone & grupos & Hbd' & Hfilas & Huno).
    { rewrite Hops. now split. }
    rewrite Hops in Hfilas.
    split; [exact Hnone |].
    assert (Hreg : is_Some (obtener_operador (operadores st) (i_operador i))).
    { rewrite Ho. unfold obtener_operador. rewrite Hget. now eexists. }
    destruct Hbd as [Hbd | (e & Hfalla & Hest & _ & Hbd)].
    + exists ([i] :: grupos). cbn [concat]. rewrite Hbd', Hbd, <- app_assoc.
      split; [reflexivity |]. split.
      * constructor; [| exact Hfilas].
        exists i. split; [exact Hq | split; [exact Hreg | now left]].
      * intros Hk. constructor; [reflexivity | now apply Huno].
    + exists ([i; mkIntento (it_id item) (operador op) "error" None (Some e) None]
                :: grupos).
      cbn [concat]. rewrite Hbd', Hbd, <- app_assoc.
      split; [reflexivity |]. split.
      * constructor; [| exact Hfilas].
        exists i. split; [exact Hq | split; [exact Hreg |]].
        right. exists e. split; [exact Hest | now rewrite Ho].
      * intros Hk. rewrite Hk in Hfalla. discriminate Hfalla.
Qed.

End RegistroValido.

(** X11: every registry reached from the predefined one by
    [habilitar_operador] and [agregar_operador] files each configuration
    under its own name and keeps an entry named [principal].  On such a
    state the selector raises no [KeyError] during a pass of
    [procesar_cola] and the carrier-not-found branch is never taken: the
    pass persists the attempt records of every row, in the rows' order,
    each under the row's id and a registered carrier name.  A row gets one
    record, followed by a second one, in state [error], only when the first
    is an [enviado] record whose write raised; when no such write raises
    every row gets exactly one.  [reintentar_fallidos] does so for the rows
    in state [reintentando]. *)
Theorem X11_pasadas_sin_excepcion :
  forall (env : Entorno) (os : list Operacion) (env' : Entorno)
         (pendientes : list QueueItem),
    registro_valido (operadores (ejecutar_todas env inicial os))
    /\ snd (procesar_cola env' (ejecutar_todas env inicial os) pendientes) = None
    /\ (exists grupos,
          intentos_bd
            (fst (procesar_cola env' (ejecutar_todas env inicial os) pendientes))
          = (intentos_bd (ejecutar_todas env inicial os) ++ concat grupos)%list
          /\ Forall2
               (registros_de_fila (operadores (ejecutar_todas env inicial os)))
               pendientes grupos
          /\ ((forall k, bd_falla env' k = None) ->
              Forall (fun g => length g = 1%nat) grupos))
    /\ snd (reintentar_fallidos env' (ejecutar_todas env inicial os) pendientes)
       = None
    /\ (exists grupos,
          intentos_bd
            (fst (reintentar_fallidos env' (ejecutar_todas env inicial os)
                    pendientes))
          = (intentos_bd (ejecutar_todas env inicial os) ++ concat grupos)%list
          /\ Forall2
               (registros_de_fila (operadores (ejecutar_todas env inicial os)))
               (List.filter es_reintentando pendientes) grupos
          /\ ((forall k, bd_falla env' k = None) ->
              Forall (fun g => length g = 1%nat) grupos)).
Proof.
  intros env os env' pendientes.
  pose proof (valido_ejecutar_todas env os) as Hval.
  set (st := ejecutar_todas env inicial os) in *.
  split; [exact Hval |].
  rewrite procesar_cola_items, reintentar_es_procesar_items.
  destruct (procesar_items_registros env' pendientes st Hval)
    as (Hnone & grupos & Hbd & Hfilas & Huno).
  destruct (procesar_items_registros env'
              (List.filter es_reintentando pendientes) st Hval)
    as (Hnone' & grupos' & Hbd' & Hfilas' & Huno').
  split; [exact Hnone |].
  split; [exists grupos; repeat split; assumption |].
  split; [exact Hnone' |].
  exists grupos'. repeat split; assumption.
Qed.

(** ** Listing the carriers *)


(** ** Detecting the carrier of a number *)

Section Deteccion.

Lemma buscar_prefijo_clave tabla prefijo op :
  buscar_prefijo tabla prefijo = Some op ->
  exists prefijos, In (op, prefijos) tabla /\ In prefijo prefijos.
Proof.
  induction tabla as [| [op' prefijos] tabla IH]; cbn [buscar_prefijo]; [discriminate |].
  destruct (existsb (String.eqb prefijo) prefijos) eqn:Hex.
  - intros [= ->]. exists prefijos. split; [now left |].
    apply existsb_exists in Hex as (x & Hin & Heq).
    apply String.eqb_eq in Heq. now subst.
  - intros H. destruct (IH H) as (ps & Hin & Hp). exists ps. split; [now right | exact Hp].
Qed.

(** Every listed prefix is three bytes long. *)
Lemma prefijo_listado_length prefijo op :
  buscar_prefijo OPERADOR_PREFIJOS prefijo = Some op -> String.length prefijo = 3%nat.
Proof.
  intros H. apply buscar_prefijo_clave in H as (ps & Hin & Hp).
  cbn in Hin.
  destruct Hin as [[= <- <-] | [[= <- <-] | [[= <- <-] | [[= <- <-] | []]]]];
    cbn in Hp; repeat (destruct Hp as [<- | Hp]; [reflexivity |]); destruct Hp.
Qed.

Lemma tomar_saltar s :
  PyStr.tomar_continuacion s ++ PyStr.saltar_continuacion s = s.
Proof.
  induction s as [| c s IH]; [reflexivity |].
  cbn [PyStr.tomar_continuacion PyStr.saltar_continuacion].
  destruct (PyStr.es_continuacion c); [| reflexivity].
  change (String c (PyStr.tomar_continuacion s ++ PyStr.saltar_continuacion s)
          = String c s).
  now rewrite IH.
Qed.

Lemma length_append_str s1 s2 :
  String.length (s1 ++ s2) = (String.length s1 + String.length s2)%nat.
Proof.
  induction s1 as [| c s1 IH]; [reflexivity |].
  change (S (String.length (s1 ++ s2))
          = S (String.length s1 + String.length s2)).
  now rewrite IH.
Qed.

Lemma hasta_length k :
  forall s, (String.length (PyStr.hasta k s) <= String.length s)%nat.
Proof.
  induction k as [| k IH]; intros s; [cbn; lia |].
  destruct s as [| c s]; [cbn; lia |].
  cbn [PyStr.hasta String.length].
  rewrite length_append_str.
  pose proof (IH (PyStr.saltar_continuacion s)) as Hk.
  pose proof (f_equal String.length (tomar_saltar s)) as Hs.
  rewrite length_append_str in Hs. lia.
Qed.

End Deteccion.

(** X13: for every input string [detectar_operador_por_numero] returns one
    of [movistar], [claro], [wom], [directv] or [principal], and of these
    only [principal] names a carrier of the predefined registry: a name
    detected from a listed prefix is unknown to [obtener_operador] until a
    carrier of that name is added. *)
Theorem X13_deteccion_rango :
  forall numero : string,
    In (detectar_operador_por_numero numero)
       ["movistar"; "claro"; "wom"; "directv"; "principal"]
    /\ (detectar_operador_por_numero numero = "principal"
        \/ obtener_operador OPERADORES_PREDEFINIDOS
             (detectar_operador_por_numero numero) = None).
Proof.
  intros numero. unfold detectar_operador_por_numero. cbv zeta.
  destruct (buscar_prefijo OPERADOR_PREFIJOS
              (PyStr.hasta 3 (numero_nacional numero))) as [op |] eqn:Hb.
  - apply buscar_prefijo_clave in Hb as (ps & Hin & _). cbn in Hin.
    destruct Hin as [[= <- <-] | [[= <- <-] | [[= <- <-] | [[= <- <-] | []]]]];
      (split; [cbn; tauto | right; reflexivity]).
  - split; [cbn; tauto | now left].
Qed.

(** X14: a number whose stripped national part is shorter than three bytes
    matches no prefix and is assigned to [principal]. *)
Theorem X14_deteccion_numero_corto :
  forall numero : string,
    (String.length (numero_nacional numero) < 3)%nat ->
    detectar_operador_por_numero numero = "principal".
Proof.
  intros numero Hcorto. unfold detectar_operador_por_numero. cbv zeta.
  destruct (buscar_prefijo OPERADOR_PREFIJOS
              (PyStr.hasta 3 (numero_nacional numero))) as [op |] eqn:Hb;
    [| reflexivity].
  apply prefijo_listado_length in Hb.
  pose proof (hasta_length 3 (numero_nacional numero)). lia.
Qed.

Lemma X14_deteccion_numero_corto_testigo :
  (String.length (numero_nacional " 5730 ") < 3)%nat
  /\ detectar_operador_por_numero " 5730 " = "principal".
Proof.
  assert (H : (String.length (numero_nacional " 5730 ") < 3)%nat)
    by (vm_compute; lia).
  split; [exact H |].
  exact (X14_deteccion_numero_corto " 5730 " H).
Defined.

Section Digitos.

(** No whitespace character begins or ends with the byte of a digit. *)
Lemma digito_no_espacio c l :
  ((48 <=? nat_of_ascii c)%nat && (nat_of_ascii c <=? 57)%nat) = true ->
  PyStr.quitar_primero PyStr.ESPACIOS (c :: l) = None
  /\ PyStr.quitar_primero (map (@rev ascii) PyStr.ESPACIOS) (c :: l) = None.
Proof.
  intros H.
  destruct c as [b0 b1 b2 b3 b4 b5 b6 b7];
    destruct b0, b1, b2, b3, b4, b5, b6, b7;
    vm_compute in H; try discriminate H; split; reflexivity.
Qed.

Lemma quitar_todos_cabeza tabla n c l :
  PyStr.quitar_primero tabla (c :: l) = None ->
  PyStr.quitar_todos tabla n (c :: l) = c :: l.
Proof. intros H. destruct n; cbn [PyStr.quitar_todos]; [| rewrite H]; reflexivity. Qed.

Lemma lstrip_digitos l :
  forallb (fun c => (48 <=? nat_of_ascii c)%nat && (nat_of_ascii c <=? 57)%nat) l
  = true ->
  PyStr.lstrip_bytes l = l.
Proof.
  intros H. unfold PyStr.lstrip_bytes.
  destruct l as [| c l]; [reflexivity |].
  cbn [forallb] in H. apply andb_true_iff in H as [Hc _].
  apply quitar_todos_cabeza. exact (proj1 (digito_no_espacio c l Hc)).
Qed.

Lemma rstrip_digitos l :
  forallb (fun c => (48 <=? nat_of_ascii c)%nat && (nat_of_ascii c <=? 57)%nat) l
  = true ->
  PyStr.rstrip_bytes l = l.
Proof.
  intros H. unfold PyStr.rstrip_bytes.
  destruct (rev l) as [| c r] eqn:Hrev.
  - assert (Hl : l = []) by (rewrite <- (rev_involutive l), Hrev; reflexivity).
    subst l. reflexivity.
  - assert (Hc : ((48 <=? nat_of_ascii c)%nat && (nat_of_ascii c <=? 57)%nat) = true).
    { rewrite forallb_forall in H. apply H. apply in_rev. rewrite Hrev. now left. }
    rewrite (quitar_todos_cabeza _ _ c r (proj2 (digito_no_espacio c r Hc))).
    now rewrite <- Hrev, rev_involutive.
Qed.

(** [strip] leaves a string of digits as it is. *)
Lemma strip_digitos s : solo_digitos s = true -> PyStr.strip s = s.
Proof.
  unfold solo_digitos, PyStr.strip. intros H.
  rewrite (lstrip_digitos _ H), (rstrip_digitos _ H).
  apply string_of_list_ascii_of_string.
Qed.

Lemma saltar_continuacion_digitos s :
  solo_digitos s = true -> PyStr.saltar_continuacion s = s.
Proof.
  unfold solo_digitos. destruct s as [| c s]; [reflexivity |].
  cbn [list_ascii_of_string forallb PyStr.saltar_continuacion].
  intros H. apply andb_true_iff in H as [Hc _].
  apply andb_true_iff in Hc as [_ Hc]. apply Nat.leb_le in Hc.
  unfold PyStr.es_continuacion. cbv zeta.
  destruct (128 <=? nat_of_ascii c)%nat eqn:Hk; [| reflexivity].
  apply Nat.leb_le in Hk. lia.
Qed.

Lemma nacional_digitos s :
  solo_digitos s = true -> PyStr.startswith "57" s = false ->
  numero_nacional s = s.
Proof.
  intros Hd Hs. unfold numero_nacional. cbv zeta.
  now rewrite (strip_digitos s Hd), Hs.
Qed.

Lemma nacional_con_prefijo s :
  solo_digitos s = true -> numero_nacional (String "5" (String "7" s)) = s.
Proof.
  intros Hd. unfold numero_nacional. cbv zeta.
  rewrite strip_digitos by exact Hd.
  assert (Hpre : PyStr.startswith "57" (String "5" (String "7" s)) = true)
    by (destruct s; reflexivity).
  rewrite Hpre.
  cbn [PyStr.desde PyStr.saltar_continuacion].
  change (PyStr.es_continuacion "7") with false. cbv iota.
  now apply saltar_continuacion_digitos.
Qed.

End Digitos.

Example deteccion_ejemplos :
  map detectar_operador_por_numero
      ["3011234567"; "573011234567"; "  3101234567 "; "3221"; "3120000000";
       "9991234567"; "57 301"; ""]
  = ["claro"; "claro"; "movistar"; "wom"; "directv"; "principal"; "principal";
     "principal"].
Proof. vm_compute. reflexivity. Qed.

(** X15: for a number written in digits only that does not itself begin
    with [57], putting the country code [57] in front does not change the
    carrier detected. *)
Theorem X15_deteccion_con_codigo_de_pais :
  forall n : string,
    solo_digitos n = true ->
    PyStr.startswith "57" n = false ->
    detectar_operador_por_numero ("57" ++ n) = detectar_operador_por_numero n.
Proof.
  intros n Hd Hs. unfold detectar_operador_por_numero. cbv zeta.
  change ("57" ++ n) with (String "5" (String "7" n)).
  now rewrite (nacional_con_prefijo n Hd), (nacional_digitos n Hd Hs).
Qed.

Lemma X15_deteccion_con_codigo_de_pais_testigo :
  solo_digitos "3011234567" = true
  /\ PyStr.startswith "57" "3011234567" = false
  /\ detectar_operador_por_numero ("57" ++ "3011234567")
     = detectar_operador_por_numero "3011234567".
Proof.
  split; [reflexivity | split; [reflexivity |]].
  exact (X15_deteccion_con_codigo_de_pais "3011234567" eq_refl eq_refl).
Defined.
